(** * Git Auto Push: directory classifier, branch-sync resolver, command
      runner, the extension's command and the standalone scripts

    A shallow embedding of [GitAutoPushCore] (gitAutoPushCore.ts), of
    [GitAutoPush] (extension.ts) and of git-auto-push.sh and
    git-auto-push.bat.

    Conventions of the embedding.
    - A JavaScript string is the sequence of bytes of its UTF-8 encoding
      ([string]); the literals of the source are kept as they are.
    - [this.log] only appends a line to the output channel; it returns
      nothing and no control flow depends on it, so it is left out.
    - An absolute, normalised path such as the [fsPath] of a workspace folder
      is a root (["/"], ["c:\"]) and the list of the segments below it.
    - Synchronous code that may throw returns an [outcome]; [async] code that
      talks to the editor and to child processes is a tree of requests whose
      answers come from the environment: a [Prog] in the core, a [Task] in
      the extension, a [Script] for the standalone scripts. *)

From Stdlib Require Import String Ascii List ZArith Lia Bool.
From stdpp Require Import gmap strings list.
Import ListNotations.
Open Scope string_scope.
Open Scope nat_scope.
Open Scope list_scope.

(** ** JavaScript strings *)

Module Js.

(** [s.startsWith(p)] *)
Fixpoint startsWith (s p : string) : bool :=
  match p, s with
  | EmptyString, _ => true
  | String _ _, EmptyString => false
  | String a p', String b s' => if Ascii.eqb a b then startsWith s' p' else false
  end.

(** [s.includes(needle)]: [needle] occurs in [s] at some offset. *)
Fixpoint includes (s needle : string) : bool :=
  startsWith s needle ||
  match s with
  | EmptyString => false
  | String _ s' => includes s' needle
  end.

Definition lower_byte (c : ascii) : ascii :=
  let n := nat_of_ascii c in
  if (65 <=? n) && (n <=? 90) then ascii_of_nat (n + 32) else c.

(** [s.toLowerCase()] on the ASCII letters; bytes of other characters are
    kept. *)
Fixpoint toLowerCase (s : string) : string :=
  match s with
  | EmptyString => EmptyString
  | String c s' => String (lower_byte c) (toLowerCase s')
  end.

Fixpoint rev_onto (s acc : string) : string :=
  match s with
  | EmptyString => acc
  | String c s' => rev_onto s' (String c acc)
  end.

Definition reverse (s : string) : string := rev_onto s EmptyString.

(** White space and line terminators of ECMAScript, by the bytes of their
    UTF-8 encoding: TAB, LF, VT, FF, CR, SP; U+00A0; U+1680, U+2000..U+200A,
    U+2028, U+2029, U+202F, U+205F, U+3000, U+FEFF. *)
Definition ws1 (a : ascii) : bool :=
  let n := nat_of_ascii a in
  ((9 <=? n) && (n <=? 13)) || (n =? 32).

Definition ws2 (a b : ascii) : bool :=
  (nat_of_ascii a =? 194) && (nat_of_ascii b =? 160).

Definition ws3 (a b c : ascii) : bool :=
  let x := nat_of_ascii a in
  let y := nat_of_ascii b in
  let z := nat_of_ascii c in
  ((x =? 225) && (y =? 154) && (z =? 128)) ||
  ((x =? 226) && (y =? 128) &&
     (((128 <=? z) && (z <=? 138)) || (z =? 168) || (z =? 169) || (z =? 175))) ||
  ((x =? 226) && (y =? 129) && (z =? 159)) ||
  ((x =? 227) && (y =? 128) && (z =? 128)) ||
  ((x =? 239) && (y =? 187) && (z =? 191)).

(** Strips leading white space. With [fwd = false] the string is read
    backwards (it is a reversed string) and multi-byte characters are
    matched last byte first. *)
Fixpoint strip (fwd : bool) (s : string) : string :=
  match s with
  | EmptyString => s
  | String a s1 =>
    if ws1 a then strip fwd s1 else
    match s1 with
    | EmptyString => s
    | String b s2 =>
      if (if fwd then ws2 a b else ws2 b a) then strip fwd s2 else
      match s2 with
      | EmptyString => s
      | String c s3 =>
        if (if fwd then ws3 a b c else ws3 c b a) then strip fwd s3 else s
      end
    end
  end.

(** [s.trim()] *)
Definition trim (s : string) : string :=
  reverse (strip false (reverse (strip true s))).

(** [s.split('\n')] *)
Fixpoint split_newline (s : string) : list string :=
  match s with
  | EmptyString => [EmptyString]
  | String c s' =>
    if Ascii.eqb c "010"%char then EmptyString :: split_newline s'
    else match split_newline s' with
         | h :: t => String c h :: t
         | [] => [String c EmptyString]
         end
  end.

(** [x || ''] for [x] a string or [undefined]. *)
Definition or_empty (x : option string) : string :=
  match x with
  | Some s => s
  | None => EmptyString
  end.

(** [new Set([...]).has(x)] *)
Definition has (s : gset string) (x : string) : bool := bool_decide (x ∈ s).

(** [array.includes(x)] on an array of strings. *)
Definition array_includes (l : list string) (x : string) : bool :=
  bool_decide (x ∈ l).

(** [array.some(p)] *)
Definition some {A} (l : list A) (p : A -> bool) : bool := existsb p l.

End Js.

Arguments Js.has : simpl never.
Arguments Js.array_includes : simpl never.
Arguments Js.includes : simpl never.
Arguments Js.toLowerCase : simpl never.
Arguments Js.trim : simpl never.

(** ** Paths (Node's [path] module on absolute, normalised paths) *)

Record path := { proot : string; psegs : list string }.

#[global] Instance path_eq_dec : EqDecision path.
Proof. solve_decision. Defined.

Module Path.

(** [join(p, name)] for a [name] without separators. *)
Definition join (p : path) (name : string) : path :=
  {| proot := proot p; psegs := psegs p ++ [name] |}.

(** [dirname(p)]: the parent; the root is its own parent. *)
Definition dirname (p : path) : path :=
  {| proot := proot p; psegs := removelast (psegs p) |}.

(** [parse(p).root] *)
Definition parse_root (p : path) : path :=
  {| proot := proot p; psegs := [] |}.

Fixpoint concat_with (sep : string) (l : list string) : string :=
  match l with
  | [] => EmptyString
  | [x] => x
  | x :: rest => x +:+ sep +:+ concat_with sep rest
  end.

(** The path as the string the program holds. *)
Definition to_string (sep : string) (p : path) : string :=
  proot p +:+ concat_with sep (psegs p).

Fixpoint last_dot (s : string) (i : nat) (found : option nat) : option nat :=
  match s with
  | EmptyString => found
  | String c s' =>
    last_dot s' (S i) (if Ascii.eqb c "."%char then Some i else found)
  end.

Fixpoint drop (n : nat) (s : string) : string :=
  match n, s with
  | O, _ => s
  | S n', String _ s' => drop n' s'
  | S _, EmptyString => EmptyString
  end.

(** [extname(name)] for a [name] without separators: from the last dot to
    the end; empty when there is no dot, when the only dot leads the name,
    and for [".."]. *)
Definition extname (name : string) : string :=
  match last_dot name 0 None with
  | None => EmptyString
  | Some O => EmptyString
  | Some i => if String.eqb name ".." then EmptyString else drop i name
  end.

End Path.

(** ** Exceptions *)

Inductive JsError := Error (message : string).

Definition message (e : JsError) : string := let 'Error m := e in m.

(** The result of running synchronous code: a value, an exception, or a
    loop that was cut off by its iteration budget. *)
Inductive outcome (A : Type) : Type :=
| Returns (a : A)
| Throws (e : JsError)
| OutOfFuel.

Arguments Returns {A} a.
Arguments Throws {A} e.
Arguments OutOfFuel {A}.

Definition obind {A B} (m : outcome A) (k : A -> outcome B) : outcome B :=
  match m with
  | Returns a => k a
  | Throws e => Throws e
  | OutOfFuel => OutOfFuel
  end.

(** [try { body } catch { handler }] *)
Definition try_catch {A} (body : outcome A) (handler : JsError -> outcome A) : outcome A :=
  match body with
  | Throws e => handler e
  | other => other
  end.

#[global] Instance outcome_ret : MRet outcome := @Returns.
#[global] Instance outcome_bind : MBind outcome := fun A B k m => obind m k.

(** ** The file system, as [fs] sees it *)

Record Stats := { isFile : bool; isDirectory : bool }.

(** A call into [fs] gives a value or throws; [existsSync] never throws. *)
Inductive attempt (A : Type) : Type :=
| Done (a : A)
| Failed (e : JsError).

Arguments Done {A} a.
Arguments Failed {A} e.

Definition call {A} (r : attempt A) : outcome A :=
  match r with
  | Done a => Returns a
  | Failed e => Throws e
  end.

Record FileSystem := {
  existsSync : path -> bool;
  readdirSync : path -> attempt (list string);
  statSync : path -> attempt Stats;
  readFileSync : path -> attempt string
}.

(** ** Platform detection *)

Record PlatformInfo := {
  system : string;
  type : string;
  name : string;
  shell : string;
  isWindows : bool;
  isMacOS : bool;
  isLinux : bool;
  isWSL : bool
}.

Definition proc_version : path := {| proot := "/"; psegs := ["proc"; "version"] |}.

(** [detectPlatform], from [os.platform()], [os.release()] and, on Linux,
    the text of /proc/version. *)
Definition detectPlatform (fs : FileSystem) (currentPlatform currentRelease : string)
  : PlatformInfo :=
  let platformInfo :=
    {| system := currentPlatform; type := "unknown"; name := "Unknown";
       shell := "unknown"; isWindows := false; isMacOS := false;
       isLinux := false; isWSL := false |} in
  if String.eqb currentPlatform "win32" then
    {| system := currentPlatform; type := "windows";
       name := "Windows " +:+ currentRelease; shell := "cmd";
       isWindows := true; isMacOS := false; isLinux := false; isWSL := false |}
  else if String.eqb currentPlatform "darwin" then
    {| system := currentPlatform; type := "macos";
       name := "macOS " +:+ currentRelease; shell := "zsh";
       isWindows := false; isMacOS := true; isLinux := false; isWSL := false |}
  else if String.eqb currentPlatform "linux" then
    let linux :=
      {| system := currentPlatform; type := "linux";
         name := "Linux " +:+ currentRelease; shell := "bash";
         isWindows := false; isMacOS := false; isLinux := true; isWSL := false |} in
    match readFileSync fs proc_version with
    | Done text =>
      let versionInfo := Js.toLowerCase text in
      if Js.includes versionInfo "microsoft" || Js.includes versionInfo "wsl" then
        {| system := currentPlatform; type := "wsl";
           name := "WSL " +:+ currentRelease; shell := "bash";
           isWindows := false; isMacOS := false; isLinux := true; isWSL := true |}
      else linux
    | _ => linux
    end
  else platformInfo.

(** ** The directory classifier *)

(** The fields [hasSourceFiles] and [isSystemFolder] carry a trailing
    underscore: the methods of the same names keep them. *)
Record DirectoryAnalysis := {
  isGitRepo : bool;
  isEmpty : bool;
  hasSourceFiles_ : bool;
  isSystemFolder_ : bool;
  isNestedRepo : bool;
  folderType : string;
  gitInitRecommended : bool;
  warningMessage : option string;
  actionRecommendation : string
}.

(** Assignments to the fields of the analysis object. *)
Definition set_folderType (v : string) (a : DirectoryAnalysis) : DirectoryAnalysis :=
  {| isGitRepo := isGitRepo a; isEmpty := isEmpty a;
     hasSourceFiles_ := hasSourceFiles_ a; isSystemFolder_ := isSystemFolder_ a;
     isNestedRepo := isNestedRepo a; folderType := v;
     gitInitRecommended := gitInitRecommended a;
     warningMessage := warningMessage a;
     actionRecommendation := actionRecommendation a |}.

Definition set_gitInitRecommended (v : bool) (a : DirectoryAnalysis) : DirectoryAnalysis :=
  {| isGitRepo := isGitRepo a; isEmpty := isEmpty a;
     hasSourceFiles_ := hasSourceFiles_ a; isSystemFolder_ := isSystemFolder_ a;
     isNestedRepo := isNestedRepo a; folderType := folderType a;
     gitInitRecommended := v;
     warningMessage := warningMessage a;
     actionRecommendation := actionRecommendation a |}.

Definition set_warningMessage (v : string) (a : DirectoryAnalysis) : DirectoryAnalysis :=
  {| isGitRepo := isGitRepo a; isEmpty := isEmpty a;
     hasSourceFiles_ := hasSourceFiles_ a; isSystemFolder_ := isSystemFolder_ a;
     isNestedRepo := isNestedRepo a; folderType := folderType a;
     gitInitRecommended := gitInitRecommended a;
     warningMessage := Some v;
     actionRecommendation := actionRecommendation a |}.

Definition set_actionRecommendation (v : string) (a : DirectoryAnalysis) : DirectoryAnalysis :=
  {| isGitRepo := isGitRepo a; isEmpty := isEmpty a;
     hasSourceFiles_ := hasSourceFiles_ a; isSystemFolder_ := isSystemFolder_ a;
     isNestedRepo := isNestedRepo a; folderType := folderType a;
     gitInitRecommended := gitInitRecommended a;
     warningMessage := warningMessage a;
     actionRecommendation := v |}.

Definition sourceExtensions : gset string :=
  {[ ".py"; ".js"; ".ts"; ".java"; ".cpp"; ".c"; ".cs"; ".php"; ".rb";
     ".go"; ".rs"; ".swift"; ".kt"; ".scala"; ".sh"; ".bat"; ".html";
     ".css"; ".vue"; ".jsx"; ".tsx"; ".json"; ".xml"; ".yaml"; ".yml";
     ".md"; ".txt"; ".sql"; ".r"; ".m"; ".pl" ]}.

Definition configFiles : gset string :=
  {[ "package.json"; "requirements.txt"; "Cargo.toml"; "pom.xml";
     "build.gradle"; "Makefile"; "CMakeLists.txt"; "setup.py";
     "pyproject.toml"; "composer.json"; "Gemfile"; "go.mod" ]}.

Definition commonSrcDirs : list string :=
  ["src"; "lib"; "app"; "components"; "modules"].

Definition windowsSystemPaths : list string :=
  ["c:\windows"; "c:\program files"; "c:\program files (x86)";
   "c:\programdata"; "c:\users\public"; "c:\system volume information";
   "\appdata\"; "\temp\"; "\tmp\"].

Definition unixSystemPaths : list string :=
  ["/bin"; "/sbin"; "/usr/bin"; "/usr/sbin"; "/etc"; "/var";
   "/tmp"; "/sys"; "/proc"; "/dev"; "/boot"; "/root"].

Arguments sourceExtensions : simpl never.
Arguments configFiles : simpl never.

Section GitAutoPushCore.

Variable fs : FileSystem.
Variable platformInfo : PlatformInfo.
Variable workspaceRoot : path.

(** [this.gitPath = join(workspaceRoot, '.git')], set by the constructor. *)
Definition gitPath : path := Path.join workspaceRoot ".git".

(** The separator of the [path] module of the host. *)
Definition sep : string := if isWindows platformInfo then "\" else "/".

Definition isGitRepository : outcome bool :=
  Returns (existsSync fs gitPath).

Definition isDirectoryEmpty : outcome bool :=
  try_catch
    (files ← call (readdirSync fs workspaceRoot);
     Returns (length files =? 0))
    (fun _ => Returns false).

(** The body of [for (const file of files)] in [hasSourceFiles]; [Returns
    true] is the early [return true], the end of the list falls through to
    [return false]. *)
Fixpoint scanFiles (files : list string) : outcome bool :=
  match files with
  | [] => Returns false
  | file :: rest =>
    let filePath := Path.join workspaceRoot file in
    stat ← call (statSync fs filePath);
    if isFile stat then
      let ext := Js.toLowerCase (Path.extname file) in
      if Js.has sourceExtensions ext || Js.has configFiles file
      then Returns true
      else scanFiles rest
    else if isDirectory stat then
      if Js.array_includes commonSrcDirs file
      then Returns true
      else scanFiles rest
    else scanFiles rest
  end.

Definition hasSourceFiles : outcome bool :=
  try_catch
    (files ← call (readdirSync fs workspaceRoot);
     scanFiles files)
    (fun _ => Returns false).

Definition isSystemFolder : bool :=
  let pathStr := Js.toLowerCase (Path.to_string sep workspaceRoot) in
  let systemPaths :=
    if isWindows platformInfo then windowsSystemPaths else unixSystemPaths in
  Js.some systemPaths (fun sysPath => Js.includes pathStr sysPath).

(** [while (current !== root) { ... current = dirname(current); }] with a
    budget of iterations. *)
Fixpoint walkUp (fuel : nat) (root current : path) : outcome bool :=
  match fuel with
  | O => OutOfFuel
  | S fuel' =>
    if bool_decide (current = root) then Returns false
    else if existsSync fs (Path.join current ".git") then Returns true
    else walkUp fuel' root (Path.dirname current)
  end.

Definition isNestedInGitRepo : outcome bool :=
  self ← isGitRepository;
  if self : bool then Returns false
  else
    let current := Path.dirname workspaceRoot in
    let root := Path.parse_root current in
    walkUp (S (length (psegs current))) root current.

Definition analyzeCurrentDirectory : outcome DirectoryAnalysis :=
  repo ← isGitRepository;
  empty ← isDirectoryEmpty;
  sources ← hasSourceFiles;
  nested ← isNestedInGitRepo;
  let analysis :=
    {| isGitRepo := repo; isEmpty := empty;
       hasSourceFiles_ := sources; isSystemFolder_ := isSystemFolder;
       isNestedRepo := nested; folderType := "unknown";
       gitInitRecommended := false; warningMessage := None;
       actionRecommendation := "" |} in
  Returns
    (if isGitRepo analysis then
       set_actionRecommendation "このフォルダは既にGitリポジトリです"
         (set_folderType "existing_git_repo" analysis)
     else if isSystemFolder_ analysis then
       set_actionRecommendation "システムフォルダ以外での実行をお勧めします"
         (set_warningMessage "⚠️ システムフォルダでのgit init は推奨されません"
            (set_folderType "system_folder" analysis))
     else if isNestedRepo analysis then
       set_actionRecommendation "サブモジュールとして追加するか、別の場所に移動してください"
         (set_warningMessage "⚠️ 既存のGitリポジトリ内にネストされています"
            (set_folderType "nested_in_repo" analysis))
     else if isEmpty analysis then
       set_actionRecommendation "空のフォルダです。新しいプロジェクトの開始に適しています"
         (set_gitInitRecommended true
            (set_folderType "empty_folder" analysis))
     else if hasSourceFiles_ analysis then
       set_actionRecommendation "ソースファイルが見つかりました。Gitリポジトリ化をお勧めします"
         (set_gitInitRecommended true
            (set_folderType "source_project" analysis))
     else
       set_actionRecommendation "一般的なフォルダです。必要に応じてGitリポジトリ化できます"
         (set_gitInitRecommended true
            (set_folderType "general_folder" analysis))).

End GitAutoPushCore.

(** ** The workspace-folder choice of extension.ts *)

Section GetWorkspaceRoot.

Variable fs : FileSystem.

(** [for (const folder of workspaceFolders)]: the first folder whose
    [.git] exists and is a directory. *)
Fixpoint firstGitFolder (folders : list path) : outcome (option path) :=
  match folders with
  | [] => Returns None
  | folder :: rest =>
    let gitPath := Path.join folder ".git" in
    if existsSync fs gitPath then
      stat ← call (statSync fs gitPath);
      if isDirectory stat then Returns (Some folder) else firstGitFolder rest
    else firstGitFolder rest
  end.

(** [getWorkspaceRoot]; [None] stands for the empty string. *)
Definition getWorkspaceRoot (workspaceFolders : option (list path))
  : outcome (option path) :=
  match workspaceFolders with
  | None => Returns None
  | Some [] => Returns None
  | Some [only] => Returns (Some only)
  | Some (first :: more) =>
    found ← firstGitFolder (first :: more);
    match found with
    | Some folder => Returns (Some folder)
    | None => Returns (Some first)
    end
  end.

End GetWorkspaceRoot.

(** ** Asynchronous code: requests to the editor and to child processes *)

Record QuickPickItem := { label : string; description : string }.

Record ExecOptions := { cwd : path; maxBuffer : N; timeout : N }.

(** The [error] argument of the callback of [child_process.exec]. *)
Inductive exec_code := ExitCode (n : Z) | ErrorName (name : string).

Record ExecException := {
  code : option exec_code;
  killed : bool;
  signal : option string
}.

(** What a call of [exec] does: it throws, or it later calls back once. *)
Inductive ExecAnswer :=
| ExecThrows (e : JsError)
| ExecCallback (err : option ExecException) (stdout stderr : string).

Inductive Event : Type -> Type :=
| ShowQuickPick (items : list QuickPickItem) (placeHolder : string)
  : Event (option QuickPickItem)
| ShowWarningMessage (text : string) (items : list string)
  : Event (option string)
| Exec (command : string) (options : ExecOptions)
  : Event ExecAnswer.

Inductive Prog (A : Type) : Type :=
| Ret (a : A)
| Raise (e : JsError)
| Vis {X : Type} (ev : Event X) (k : X -> Prog A).

Arguments Ret {A} a.
Arguments Raise {A} e.
Arguments Vis {A X} ev k.

Fixpoint pbind {A B} (m : Prog A) (k : A -> Prog B) : Prog B :=
  match m with
  | Ret a => k a
  | Raise e => Raise e
  | Vis ev h => Vis ev (fun x => pbind (h x) k)
  end.

(** [try { await body } catch (e) { handler }] *)
Fixpoint ptry {A} (body : Prog A) (handler : JsError -> Prog A) : Prog A :=
  match body with
  | Ret a => Ret a
  | Raise e => handler e
  | Vis ev h => Vis ev (fun x => ptry (h x) handler)
  end.

#[global] Instance Prog_ret : MRet Prog := @Ret.
#[global] Instance Prog_bind : MBind Prog := fun A B k m => pbind m k.

Definition ask {X} (ev : Event X) : Prog X := Vis ev Ret.

(** The environment: a state and the answer it gives to each request. *)
Record World := {
  wstate : Type;
  respond : forall X : Type, Event X -> wstate -> X * wstate
}.

(** One request with the answer it got. *)
Inductive io : Type :=
| Io (X : Type) (ev : Event X) (answer : X).

Arguments Io {X} ev answer.

Fixpoint run {A} (W : World) (p : Prog A) (w : wstate W)
  : outcome A * wstate W * list io :=
  match p with
  | Ret a => (Returns a, w, [])
  | Raise e => (Throws e, w, [])
  | Vis ev k =>
    let '(x, w1) := respond W _ ev w in
    let '(r, w2, tr) := run W (k x) w1 in
    (r, w2, Io ev x :: tr)
  end.

Definition outcome_of {A S} (r : outcome A * S * list io) : outcome A := r.1.1.

Definition trace_of {A S} (r : outcome A * S * list io) : list io := r.2.

(** ** The command runner and the branch-sync resolver *)

Record CommandResult := {
  success : bool;
  stdout : string;
  stderr : string;
  error : option (ExecException + JsError)
}.

Definition exec (command : string) (options : ExecOptions)
  : Prog (option ExecException * string * string) :=
  answer ← ask (Exec command options);
  match answer with
  | ExecThrows e => Raise e
  | ExecCallback err out errs => Ret (err, out, errs)
  end.

Section Resolver.

Variable workspaceRoot : path.

Definition execOptions : ExecOptions :=
  {| cwd := workspaceRoot;
     maxBuffer := 10 * 1024 * 1024;
     timeout := 5 * 60 * 1000 |}%N.

(** [runCommand]: the promise is resolved by the callback of [exec], or
    by the [catch] around the call of [exec]. The listeners on the child
    only log. *)
Definition runCommand (command : string) : Prog CommandResult :=
  called ← ptry (args ← exec command execOptions; Ret (inl args))
                (fun e => Ret (inr e));
  match called with
  | inl (err, out, errs) =>
    let success := match err with Some _ => false | None => true end in
    Ret {| success := success; stdout := out; stderr := errs;
           error := inl <$> err |}
  | inr e =>
    let errorMessage := message e in
    Ret {| success := false; stdout := ""; stderr := errorMessage;
           error := Some (inr e) |}
  end.

Definition checkBranchDivergence : Prog bool :=
  result ← runCommand "git status --porcelain=v1 --branch";
  if negb (success result) then Ret false
  else
    let statusLines := Js.split_newline (Js.trim (stdout result)) in
    let branchInfo := Js.or_empty (statusLines !! 0) in
    if Js.includes branchInfo "ahead" && Js.includes branchInfo "behind" then
      Ret true
    else if Js.includes branchInfo "behind" then
      Ret true
    else if Js.includes branchInfo "ahead" then
      Ret false
    else
      Ret false.

Definition pullRebase : Prog bool :=
  result ← runCommand "git pull --rebase";
  if success result then Ret true else Ret false.

Definition pullMerge : Prog bool :=
  result ← runCommand "git pull";
  if success result then Ret true else Ret false.

Definition forcePush : Prog bool :=
  branchResult ← runCommand "git branch --show-current";
  let currentBranch :=
    if success branchResult then Js.trim (stdout branchResult) else "main" in
  result ← runCommand ("git push --force-with-lease origin " +:+ currentBranch);
  if success result then Ret true else Ret false.

Definition strategies : list QuickPickItem :=
  [ {| label := "git pull --rebase";
       description := "推奨: リモートの変更を取得してリベース" |};
    {| label := "git pull";
       description := "リモートの変更を取得してマージ" |};
    {| label := "git push --force-with-lease";
       description := "慎重: ローカルの変更を強制プッシュ" |};
    {| label := "スキップ"; description := "手動で解決" |} ].

Definition forcePushWarning : Event (option string) :=
  ShowWarningMessage
    "⚠️ 強制プッシュは危険です。リモートの変更が失われる可能性があります。"
    ["はい"; "いいえ"].

Definition strategyPrompt : Event (option QuickPickItem) :=
  ShowQuickPick strategies "ブランチの分岐を解決する方法を選択してください".

Definition handleBranchDivergence : Prog bool :=
  choice ← ask strategyPrompt;
  match choice with
  | None => Ret false
  | Some choice =>
    if String.eqb (label choice) "git pull --rebase" then pullRebase
    else if String.eqb (label choice) "git pull" then pullMerge
    else if String.eqb (label choice) "git push --force-with-lease" then
      confirmed ← ask forcePushWarning;
      if bool_decide (confirmed = Some "はい") then forcePush
      else Ret false
    else if String.eqb (label choice) "スキップ" then Ret true
    else Ret false
  end.

End Resolver.

(** The commands a run has handed to [exec], in order. *)
Definition command_of (i : io) : list string :=
  match i with
  | Io ev _ =>
    match ev with
    | Exec command _ => [command]
    | _ => []
    end
  end.

Definition commands (trace : list io) : list string := flat_map command_of trace.

(** ** [child_process.exec], as Node documents it

    A child is described by what it would do if left alone. [exec] reports
    an error when the shell cannot be spawned, when the child outlives the
    [timeout] option (it is then killed), when it writes more than
    [maxBuffer] bytes to one of its streams (it is then killed), and when
    it exits with a status other than 0. *)

Record Child := {
  spawn_failure : option string;
  run_ms : N;
  writes_stdout : string;
  writes_stderr : string;
  exit_status : Z
}.

Definition bytes (s : string) : N := N.of_nat (String.length s).

Definition node_exec (options : ExecOptions) (c : Child) : ExecAnswer :=
  match spawn_failure c with
  | Some errno =>
    ExecCallback
      (Some {| code := Some (ErrorName errno); killed := false; signal := None |})
      "" ""
  | None =>
    if ((0 <? timeout options) && (timeout options <? run_ms c))%N then
      ExecCallback
        (Some {| code := None; killed := true; signal := Some "SIGTERM" |})
        (writes_stdout c) (writes_stderr c)
    else if ((maxBuffer options <? bytes (writes_stdout c))
             || (maxBuffer options <? bytes (writes_stderr c)))%N then
      ExecCallback
        (Some {| code := Some (ErrorName "ERR_CHILD_PROCESS_STDIO_MAXBUFFER");
                 killed := true; signal := Some "SIGTERM" |})
        (writes_stdout c) (writes_stderr c)
    else if (exit_status c =? 0)%Z then
      ExecCallback None (writes_stdout c) (writes_stderr c)
    else
      ExecCallback
        (Some {| code := Some (ExitCode (exit_status c)); killed := false;
                 signal := None |})
        (writes_stdout c) (writes_stderr c)
  end.

(** ** The argument loops of the standalone scripts *)

Record ScriptVars := {
  COMMIT_MESSAGE : string;
  BRANCH : string;
  FORCE_PUSH : string
}.

(** The three variables are cleared before the loop in both scripts. *)
Definition unset_vars : ScriptVars :=
  {| COMMIT_MESSAGE := ""; BRANCH := ""; FORCE_PUSH := "" |}.

Definition set_COMMIT_MESSAGE (v : string) (s : ScriptVars) : ScriptVars :=
  {| COMMIT_MESSAGE := v; BRANCH := BRANCH s; FORCE_PUSH := FORCE_PUSH s |}.

Definition set_BRANCH (v : string) (s : ScriptVars) : ScriptVars :=
  {| COMMIT_MESSAGE := COMMIT_MESSAGE s; BRANCH := v; FORCE_PUSH := FORCE_PUSH s |}.

Definition set_FORCE_PUSH (v : string) (s : ScriptVars) : ScriptVars :=
  {| COMMIT_MESSAGE := COMMIT_MESSAGE s; BRANCH := BRANCH s; FORCE_PUSH := v |}.

(** [$2] and [%2]: the second positional parameter, empty when absent. *)
Definition second (rest : list string) : string := hd "" rest.

(** git-auto-push.sh, lines 20 to 39, under [set -e]. *)
Module Sh.

Inductive status :=
| Exit (code : Z)
| Parsed (vars : ScriptVars).

(** [while [[ $# -gt 0 ]]; do case $1 in ... esac; done]. [shift 2] with
    one parameter left fails, and the script stops there with status 1. *)
Fixpoint parse_args (args : list string) (vars : ScriptVars) : status :=
  match args with
  | [] => Parsed vars
  | arg :: rest =>
    if String.eqb arg "-m" || String.eqb arg "--message" then
      match rest with
      | [] => Exit 1
      | _ :: rest' => parse_args rest' (set_COMMIT_MESSAGE (second rest) vars)
      end
    else if String.eqb arg "-b" || String.eqb arg "--branch" then
      match rest with
      | [] => Exit 1
      | _ :: rest' => parse_args rest' (set_BRANCH (second rest) vars)
      end
    else if String.eqb arg "-f" || String.eqb arg "--force" then
      parse_args rest (set_FORCE_PUSH "--force" vars)
    else
      Exit 1
  end.

End Sh.

(** git-auto-push.bat, label [:parse_args], lines 13 to 33. *)
Module Bat.

(** [shift] on an empty parameter list changes nothing, and the loop ends
    at the first empty parameter. *)
Fixpoint parse_args (args : list string) (vars : ScriptVars) : ScriptVars :=
  match args with
  | [] => vars
  | arg :: rest =>
    if String.eqb arg "" then vars
    else if String.eqb arg "-m" then
      match rest with
      | [] => set_COMMIT_MESSAGE (second rest) vars
      | _ :: rest' => parse_args rest' (set_COMMIT_MESSAGE (second rest) vars)
      end
    else if String.eqb arg "-b" then
      match rest with
      | [] => set_BRANCH (second rest) vars
      | _ :: rest' => parse_args rest' (set_BRANCH (second rest) vars)
      end
    else if String.eqb arg "-f" then
      parse_args rest (set_FORCE_PUSH "--force" vars)
    else
      parse_args rest vars
  end.

End Bat.

(** ** Concrete environments *)

(** A file tree. A directory may refuse to be listed; a dangling link is
    listed by its parent but does not exist for [existsSync] and
    [statSync]. *)
#[warnings="-register-all"]
Inductive node :=
| RegularFile (content : string)
| Directory (listable : bool) (entries : list (string * node))
| DanglingLink.

Fixpoint entry (name : string) (entries : list (string * node)) : option node :=
  match entries with
  | [] => None
  | (n, child) :: rest => if String.eqb n name then Some child else entry name rest
  end.

Fixpoint lookup_node (n : node) (segs : list string) : option node :=
  match segs with
  | [] => Some n
  | s :: rest =>
    match n with
    | Directory _ entries =>
      match entry s entries with
      | Some child => lookup_node child rest
      | None => None
      end
    | _ => None
    end
  end.

Definition node_at (rootname : string) (tree : node) (p : path) : option node :=
  if String.eqb (proot p) rootname then lookup_node tree (psegs p) else None.

(** The answers of [fs] on a tree mounted at [rootname]. *)
Definition disk (rootname : string) (tree : node) : FileSystem :=
  {| existsSync p :=
       match node_at rootname tree p with
       | Some (RegularFile _) | Some (Directory _ _) => true
       | _ => false
       end;
     readdirSync p :=
       match node_at rootname tree p with
       | Some (Directory true entries) => Done (map fst entries)
       | Some (Directory false _) => Failed (Error "EACCES: permission denied")
       | Some (RegularFile _) => Failed (Error "ENOTDIR: not a directory")
       | _ => Failed (Error "ENOENT: no such file or directory")
       end;
     statSync p :=
       match node_at rootname tree p with
       | Some (RegularFile _) => Done {| isFile := true; isDirectory := false |}
       | Some (Directory _ _) => Done {| isFile := false; isDirectory := true |}
       | _ => Failed (Error "ENOENT: no such file or directory")
       end;
     readFileSync p :=
       match node_at rootname tree p with
       | Some (RegularFile content) => Done content
       | Some (Directory _ _) => Failed (Error "EISDIR: illegal operation on a directory")
       | _ => Failed (Error "ENOENT: no such file or directory")
       end |}.

Definition posix (segs : list string) : path := {| proot := "/"; psegs := segs |}.

Definition linuxHost : PlatformInfo :=
  {| system := "linux"; type := "linux"; name := "Linux 6.1"; shell := "bash";
     isWindows := false; isMacOS := false; isLinux := true; isWSL := false |}.

(** An operator who gives the same answers whenever asked, and commands
    whose result does not depend on what ran before. *)
Definition scripted (pick : option QuickPickItem) (confirm : option string)
    (shell : string -> ExecOptions -> ExecAnswer) : World :=
  {| wstate := unit;
     respond X ev w :=
       match ev in Event T return T * unit with
       | ShowQuickPick _ _ => (pick, w)
       | ShowWarningMessage _ _ => (confirm, w)
       | Exec command options => (shell command options, w)
       end |}.

Definition picks (l : string) : option QuickPickItem :=
  Some {| label := l; description := "" |}.

(** A sample tree: a repository with an empty directory two levels down, a
    directory that cannot be listed, a linked work tree whose [.git] is a
    file, and a plain project. *)
Definition sample_tree : node :=
  Directory true
    [ ("repo", Directory true
         [ (".git", Directory true [("HEAD", RegularFile "ref: refs/heads/main")]);
           ("docs", Directory true [("empty", Directory true [])]) ]);
      ("locked", Directory false [("main.py", RegularFile "")]);
      ("worktree", Directory true
         [ (".git", RegularFile "gitdir: /repo/.git/worktrees/w");
           ("README.md", RegularFile "") ]);
      ("proj", Directory true [("package.json", RegularFile "{}")]) ].

Definition sample_disk : FileSystem := disk "/" sample_tree.

(** A repository that starts at the root of the file system. *)
Definition root_repo_tree : node :=
  Directory true
    [ (".git", Directory true [("HEAD", RegularFile "ref: refs/heads/main")]);
      ("proj", Directory true []);
      ("srv", Directory true [("app", Directory true [("notes.txt", RegularFile "")])]) ].

Definition root_repo_disk : FileSystem := disk "/" root_repo_tree.

Definition LF : string := String "010"%char EmptyString.

(** A shell in which every command prints [out] and exits with status 0. *)
Definition prints (out : string) : string -> ExecOptions -> ExecAnswer :=
  fun _ _ => ExecCallback None out "".

(** A git too old to know [branch --show-current]: that query fails with
    status 129 and every other command succeeds. *)
Definition old_git : string -> ExecOptions -> ExecAnswer :=
  fun command _ =>
    if String.eqb command "git branch --show-current" then
      ExecCallback
        (Some {| code := Some (ExitCode 129); killed := false; signal := None |})
        "" "error: unknown option `show-current'"
    else ExecCallback None "" "".

(** A child that does its work, one that hangs, and a shell that cannot be
    started. *)
Definition quiet_child : Child :=
  {| spawn_failure := None; run_ms := 40; writes_stdout := "ok";
     writes_stderr := ""; exit_status := 0 |}.

Definition hanging_child : Child :=
  {| spawn_failure := None; run_ms := 300001; writes_stdout := "";
     writes_stderr := ""; exit_status := 0 |}.

Definition missing_shell : Child :=
  {| spawn_failure := Some "ENOENT"; run_ms := 0; writes_stdout := "";
     writes_stderr := ""; exit_status := 0 |}.

(** The child a command turns out to be; [exec] answers as Node does. *)
Definition node_shell (child : string -> Child) : string -> ExecOptions -> ExecAnswer :=
  fun command options => node_exec options (child command).

(** ** The specification's reading of the classifier *)




(** The directories above [p], the nearest first and the root last. *)
Fixpoint ancestors_of (rootname : string) (rev_segs : list string) : list path :=
  match rev_segs with
  | [] => []
  | _ :: up => {| proot := rootname; psegs := rev up |} :: ancestors_of rootname up
  end.

Definition ancestors (p : path) : list path :=
  ancestors_of (proot p) (rev (psegs p)).

Definition has_git_metadata (fs : FileSystem) (dir : path) : bool :=
  existsSync fs (Path.join dir ".git").


(** What the walk finds from [rev_segs] (deepest segment first) upwards:
    each directory below the root is probed, the root is not. *)
Fixpoint probe_up (fs : FileSystem) (rootname : string) (rev_segs : list string) : bool :=
  match rev_segs with
  | [] => false
  | _ :: up =>
    has_git_metadata fs {| proot := rootname; psegs := rev rev_segs |}
    || probe_up fs rootname up
  end.

(** The specification's [isGitRepo]: a subdirectory named [.git] exists
    directly under [dir], as [getWorkspaceRoot] tests it. *)
Definition has_git_subdirectory (fs : FileSystem) (dir : path) : Prop :=
  existsSync fs (Path.join dir ".git") = true
  /\ exists stat, statSync fs (Path.join dir ".git") = Done stat
                  /\ isDirectory stat = true.

Definition file_or_directory (n : node) : Prop :=
  match n with
  | RegularFile _ | Directory _ _ => True
  | DanglingLink => False
  end.

(** ** The notions the theorems on the resolver are stated with *)

(** The characters of [s] before its first line feed. *)
Fixpoint until_newline (s : string) : string :=
  match s with
  | EmptyString => EmptyString
  | String c s' =>
    if Ascii.eqb c "010"%char then EmptyString else String c (until_newline s')
  end.

(** The first line of the output of the status query. *)
Definition first_line (out : string) : string := until_newline (Js.trim out).

(** A command succeeds when [exec] calls back without an error. *)
Definition succeeded (answer : ExecAnswer) : bool :=
  match answer with
  | ExecCallback None _ _ => true
  | _ => false
  end.

(** The result [runCommand] settles on for an answer of [exec]. *)
Definition settled (answer : ExecAnswer) : CommandResult :=
  match answer with
  | ExecThrows e =>
    {| success := false; stdout := ""; stderr := message e; error := Some (inr e) |}
  | ExecCallback err out errs =>
    {| success := match err with Some _ => false | None => true end;
       stdout := out; stderr := errs; error := inl <$> err |}
  end.

(** The commands of a run that failed. *)
Definition failed_command_of (i : io) : list string :=
  match i with
  | Io ev answer =>
    match ev in Event T return T -> list string with
    | Exec command _ => fun answer => if succeeded answer then [] else [command]
    | _ => fun _ => []
    end answer
  end.

Definition failed_commands (trace : list io) : list string :=
  flat_map failed_command_of trace.

(** The branch [forcePush] pushes to, given the answer to its query: what
    git printed, trimmed, and [main] when the query failed. *)
Definition branch_after (query : ExecAnswer) : string :=
  match query with
  | ExecCallback None out _ => Js.trim out
  | _ => "main"
  end.

Definition status_query : string := "git status --porcelain=v1 --branch".

(** What follows the first bracket of a status line. Branch names cannot
    hold a bracket, so this is where git writes the ahead and behind
    counts. *)
Fixpoint after_bracket (line : string) : string :=
  match line with
  | EmptyString => EmptyString
  | String c rest => if Ascii.eqb c "["%char then rest else after_bracket rest
  end.

(** Git reports the branch as behind its upstream. *)
Definition reports_behind (line : string) : bool :=
  Js.includes (after_bracket line) "behind".

Definition level_branch_line : string :=
  "## feature/behind-the-scenes...origin/feature/behind-the-scenes".

(** What [exec] reports as an error for a child, under the options of
    [runCommand]: it cannot be spawned, it runs for more than five minutes,
    it writes more than ten mebibytes to a stream, or it exits with a
    status other than 0. *)
Definition goes_wrong (c : Child) : Prop :=
  is_Some (spawn_failure c)
  \/ (5 * 60 * 1000 < run_ms c)%N
  \/ (10 * 1024 * 1024 < bytes (writes_stdout c))%N
  \/ (10 * 1024 * 1024 < bytes (writes_stderr c))%N
  \/ exit_status c <> 0%Z.

(** ** Notions the further properties are stated with *)



(** [.git] exists under [folder] and is a directory. *)
Definition has_git_directory (fs : FileSystem) (folder : path) : bool :=
  existsSync fs (Path.join folder ".git")
  && match statSync fs (Path.join folder ".git") with
     | Done stat => isDirectory stat
     | Failed _ => false
     end.

(** ** More of JavaScript's strings *)

Module JsText.

(** [s.split(c)] for a separator of one character. *)
Fixpoint split_on (c : ascii) (s : string) : list string :=
  match s with
  | EmptyString => [EmptyString]
  | String x s' =>
    if Ascii.eqb x c then EmptyString :: split_on c s'
    else match split_on c s' with
         | h :: t => String x h :: t
         | [] => [String x EmptyString]
         end
  end.

(** [array.pop()] as a value: the last element, if any. *)
Definition pop (l : list string) : option string := last l.

(** [x || fallback] for [x] a string or [undefined]: the empty string is
    falsy. *)
Definition or_else (x : option string) (fallback : string) : string :=
  match x with
  | Some EmptyString | None => fallback
  | Some s => s
  end.

(** [s.replace(pat, rep)] for a pattern string and a replacement without
    [$]: the first occurrence of [pat] is replaced. *)
Fixpoint replace (s pat rep : string) : string :=
  if Js.startsWith s pat then rep +:+ Path.drop (String.length pat) s
  else match s with
       | EmptyString => EmptyString
       | String c s' => String c (replace s' pat rep)
       end.

(** [s.endsWith(suffix)] *)
Definition endsWith (s suffix : string) : bool :=
  Js.startsWith (Js.reverse s) (Js.reverse suffix).

(** [!s]: the string is empty. *)
Definition falsy (s : string) : bool :=
  match s with
  | EmptyString => true
  | _ => false
  end.

(** [x === 'はい'] and the like, for the answer of a dialog. *)
Definition same (x : option string) (item : string) : bool :=
  match x with
  | Some s => String.eqb s item
  | None => false
  end.

End JsText.

Arguments JsText.replace : simpl never.
Arguments JsText.split_on : simpl never.

(** The double quote, which a string literal cannot hold. *)
Definition DQ : string := String "034"%char EmptyString.

(** ** The extension (extension.ts): what it asks of the editor *)

(** The fields [commit] and [push] carry a trailing underscore: the methods
    of the same names keep them. *)
Record ExecutionResults := {
  gitInit : bool;
  branchSync : bool;
  staging : bool;
  commit_ : bool;
  push_ : bool;
  browserOpen : bool
}.

Definition set_gitInit (v : bool) (r : ExecutionResults) : ExecutionResults :=
  {| gitInit := v; branchSync := branchSync r; staging := staging r;
     commit_ := commit_ r; push_ := push_ r; browserOpen := browserOpen r |}.

Definition set_branchSync (v : bool) (r : ExecutionResults) : ExecutionResults :=
  {| gitInit := gitInit r; branchSync := v; staging := staging r;
     commit_ := commit_ r; push_ := push_ r; browserOpen := browserOpen r |}.

Definition set_staging (v : bool) (r : ExecutionResults) : ExecutionResults :=
  {| gitInit := gitInit r; branchSync := branchSync r; staging := v;
     commit_ := commit_ r; push_ := push_ r; browserOpen := browserOpen r |}.

Definition set_commit (v : bool) (r : ExecutionResults) : ExecutionResults :=
  {| gitInit := gitInit r; branchSync := branchSync r; staging := staging r;
     commit_ := v; push_ := push_ r; browserOpen := browserOpen r |}.

Definition set_push (v : bool) (r : ExecutionResults) : ExecutionResults :=
  {| gitInit := gitInit r; branchSync := branchSync r; staging := staging r;
     commit_ := commit_ r; push_ := v; browserOpen := browserOpen r |}.

Definition set_browserOpen (v : bool) (r : ExecutionResults) : ExecutionResults :=
  {| gitInit := gitInit r; branchSync := branchSync r; staging := staging r;
     commit_ := commit_ r; push_ := push_ r; browserOpen := v |}.

(** [Object.values(results).filter(Boolean).length] and
    [Object.keys(results).length] of [printExecutionSummary]. *)
Definition successCount (r : ExecutionResults) : nat :=
  length (filter (fun b => b = true)
            [gitInit r; branchSync r; staging r; commit_ r; push_ r; browserOpen r]).

Definition totalCount (r : ExecutionResults) : nat :=
  length [gitInit r; branchSync r; staging r; commit_ r; push_ r; browserOpen r].

(** The requests of extension.ts: those of the core, the dialogs of the
    editor, its settings, the browser, and the call of
    [printExecutionSummary], which only logs. Opening a URL can throw. *)
Inductive UiEvent : Type -> Type :=
| Core {X : Type} (ev : Event X) : UiEvent X
| ShowInformationMessage (text : string) (modal : bool) (items : list string)
  : UiEvent (option string)
| ShowErrorMessage (text : string) : UiEvent unit
| ShowInputBox (prompt value : string) : UiEvent (option string)
| ShowQuickPickOf (items : list string) (placeHolder : string)
  : UiEvent (option string)
| ConfigString (key fallback : string) : UiEvent string
| ConfigBool (key : string) (fallback : bool) : UiEvent bool
| OpenExternal (url : string) : UiEvent (attempt bool)
| PrintExecutionSummary (results : ExecutionResults) : UiEvent unit.

Inductive Task (A : Type) : Type :=
| Resolve (a : A)
| Reject (e : JsError)
| Stall
| Await {X : Type} (ev : UiEvent X) (k : X -> Task A).

Arguments Resolve {A} a.
Arguments Reject {A} e.
Arguments Stall {A}.
Arguments Await {A X} ev k.

Fixpoint tbind {A B} (m : Task A) (k : A -> Task B) : Task B :=
  match m with
  | Resolve a => k a
  | Reject e => Reject e
  | Stall => Stall
  | Await ev h => Await ev (fun x => tbind (h x) k)
  end.

(** [try { a = await body; ok(a) } catch (e) { failed(e) }], for an [ok]
    that does not throw. *)
Fixpoint settle {A B} (body : Task A) (ok : A -> Task B) (failed : JsError -> Task B)
  : Task B :=
  match body with
  | Resolve a => ok a
  | Reject e => failed e
  | Stall => Stall
  | Await ev h => Await ev (fun x => settle (h x) ok failed)
  end.

#[global] Instance Task_ret : MRet Task := @Resolve.
#[global] Instance Task_bind : MBind Task := fun A B k m => tbind m k.

Definition await {X} (ev : UiEvent X) : Task X := Await ev Resolve.

(** A program of the core, run from the extension. *)
Fixpoint lift {A} (p : Prog A) : Task A :=
  match p with
  | Ret a => Resolve a
  | Raise e => Reject e
  | Vis ev k => Await (Core ev) (fun x => lift (k x))
  end.

(** Synchronous code, run from the extension. *)
Definition of_outcome {A} (r : outcome A) : Task A :=
  match r with
  | Returns a => Resolve a
  | Throws e => Reject e
  | OutOfFuel => Stall
  end.

(** The editor, the settings and the machine behind the extension. *)
Record Host := {
  hstate : Type;
  answer : forall X : Type, UiEvent X -> hstate -> X * hstate
}.

Inductive uio : Type :=
| Uio (X : Type) (ev : UiEvent X) (x : X).

Arguments Uio {X} ev x.

Fixpoint perform {A} (H : Host) (t : Task A) (h : hstate H)
  : outcome A * hstate H * list uio :=
  match t with
  | Resolve a => (Returns a, h, [])
  | Reject e => (Throws e, h, [])
  | Stall => (OutOfFuel, h, [])
  | Await ev k =>
    let '(x, h1) := answer H _ ev h in
    let '(r, h2, tr) := perform H (k x) h1 in
    (r, h2, Uio ev x :: tr)
  end.

Definition result_of {A S} (r : outcome A * S * list uio) : outcome A := r.1.1.

Definition events_of {A S} (r : outcome A * S * list uio) : list uio := r.2.

(** The commands handed to [exec], each with the answer it got. *)
Definition exec_of (i : uio) : list (string * ExecAnswer) :=
  match i with
  | Uio ev x =>
    match ev in UiEvent T return T -> list (string * ExecAnswer) with
    | Core ev' =>
      match ev' in Event T' return T' -> list (string * ExecAnswer) with
      | Exec command _ => fun a => [(command, a)]
      | _ => fun _ => []
      end
    | _ => fun _ => []
    end x
  end.

Definition execs (trace : list uio) : list (string * ExecAnswer) :=
  flat_map exec_of trace.

Definition ran (trace : list uio) : list string := map fst (execs trace).

(** The questions put to the operator, each with the answer. *)
Definition dialog_of (i : uio) : list (string * option string) :=
  match i with
  | Uio ev x =>
    match ev in UiEvent T return T -> list (string * option string) with
    | Core ev' =>
      match ev' in Event T' return T' -> list (string * option string) with
      | ShowWarningMessage text _ => fun a => [(text, a)]
      | _ => fun _ => []
      end
    | ShowInformationMessage text _ _ => fun a => [(text, a)]
    | ShowInputBox prompt _ => fun a => [(prompt, a)]
    | ShowQuickPickOf _ placeHolder => fun a => [(placeHolder, a)]
    | _ => fun _ => []
    end x
  end.

Definition dialogs (trace : list uio) : list (string * option string) :=
  flat_map dialog_of trace.

(** The results handed to [printExecutionSummary]. *)
Definition summary_of (i : uio) : list ExecutionResults :=
  match i with
  | Uio ev _ =>
    match ev with
    | PrintExecutionSummary results => [results]
    | _ => []
    end
  end.

Definition summaries (trace : list uio) : list ExecutionResults :=
  flat_map summary_of trace.

(** The URLs handed to the browser. *)
Definition opened_of (i : uio) : list string :=
  match i with
  | Uio ev _ =>
    match ev with
    | OpenExternal url => [url]
    | _ => []
    end
  end.

Definition opened (trace : list uio) : list string := flat_map opened_of trace.

(** ** The extension: [GitAutoPush] of extension.ts *)

Section Extension.

Variable fs : FileSystem.
Variable platformInfo : PlatformInfo.
Variable workspaceRoot : path.

(** [this.workspaceRoot], the string. *)
Definition workspaceRootString : string :=
  Path.to_string (sep platformInfo) workspaceRoot.

(** [this.workspaceRoot.split('/').pop() || fallback] *)
Definition repoName (fallback : string) : string :=
  JsText.or_else (JsText.pop (JsText.split_on "/"%char workspaceRootString)) fallback.

(** [this.core.runCommand(command)] *)
Definition coreCommand (command : string) : Task CommandResult :=
  lift (runCommand workspaceRoot command).

Definition initGitRepository : Task unit :=
  result ← coreCommand "git init";
  if success result then Resolve tt
  else Reject (Error "Gitリポジトリの初期化に失敗しました").

Definition hasChanges : Task bool :=
  result ← coreCommand "git status --porcelain";
  Resolve (success result && (0 <? String.length (Js.trim (stdout result)))).

Definition addAll : Task unit :=
  result ← coreCommand "git add .";
  if success result then Resolve tt
  else Reject (Error "ステージングに失敗しました").

Definition ensureGitIdentity : Task unit :=
  nameResult ← coreCommand "git config user.name";
  _ ← (if negb (success nameResult) || JsText.falsy (Js.trim (stdout nameResult))
       then _ ← coreCommand ("git config user.name " +:+ DQ +:+ "Auto Committer" +:+ DQ);
            Resolve tt
       else Resolve tt);
  emailResult ← coreCommand "git config user.email";
  if negb (success emailResult) || JsText.falsy (Js.trim (stdout emailResult))
  then _ ← coreCommand ("git config user.email " +:+ DQ +:+ "autocommit@example.com" +:+ DQ);
       Resolve tt
  else Resolve tt.

(** [commit(message)] *)
Definition commit (text : string) : Task unit :=
  _ ← ensureGitIdentity;
  result ← coreCommand ("git commit -m " +:+ DQ +:+ text +:+ DQ);
  if success result then Resolve tt
  else Reject (Error "コミットに失敗しました").

Definition createGitHubRepository : Task unit :=
  ghCheck ← coreCommand "gh --version";
  if negb (success ghCheck) then
    Reject (Error "GitHub CLI (gh) が見つかりません。インストールしてください。")
  else
    authCheck ← coreCommand "gh auth status";
    if negb (success authCheck) then
      Reject (Error ("GitHub CLI の認証が必要です。" +:+ DQ +:+ "gh auth login" +:+ DQ
                     +:+ " を実行してください。"))
    else
      let name := repoName "new-repo" in
      visibility ← await (ShowQuickPickOf ["public"; "private"]
                            "リポジトリの可視性を選択してください");
      match visibility with
      | None | Some EmptyString =>
        Reject (Error "リポジトリの可視性が選択されませんでした")
      | Some visibility =>
        let visibilityFlag :=
          if String.eqb visibility "public" then "--public" else "--private" in
        createResult ← coreCommand ("gh repo create " +:+ name +:+ " " +:+ visibilityFlag
                                    +:+ " --source=. --remote=origin --push");
        if success createResult then Resolve tt
        else Reject (Error "GitHubリポジトリの作成に失敗しました")
      end.

Definition push : Task unit :=
  branchResult ← coreCommand "git branch --show-current";
  let currentBranch :=
    if success branchResult then Js.trim (stdout branchResult) else "main" in
  result ← coreCommand ("git push origin " +:+ currentBranch);
  result ← (if negb (success result) then
              result ← coreCommand ("git push -u origin " +:+ currentBranch);
              if negb (success result) then
                shouldCreateRepo ← lift (ask (ShowWarningMessage
                    "プッシュに失敗しました。GitHubリポジトリを作成しますか？"
                    ["はい"; "いいえ"]));
                if JsText.same shouldCreateRepo "はい" then
                  _ ← createGitHubRepository;
                  coreCommand ("git push -u origin " +:+ currentBranch)
                else Resolve result
              else Resolve result
            else Resolve result);
  if success result then Resolve tt
  else Reject (Error "プッシュに失敗しました").

(** The rewriting of the remote URL in [openInBrowser]. *)
Definition browserUrl (repoUrl : string) : string :=
  if Js.startsWith repoUrl "git@" then
    JsText.replace
      (JsText.replace (JsText.replace repoUrl ":" "/") "git@" "https://")
      ".git" ""
  else if JsText.endsWith repoUrl ".git" then
    JsText.replace repoUrl ".git" ""
  else repoUrl.

Definition openInBrowser : Task unit :=
  settle
    (ghResult ← coreCommand "gh --version";
     viaCli ← (if success ghResult then
                 result ← coreCommand "gh repo view --web";
                 Resolve (success result)
               else Resolve false);
     if viaCli : bool then Resolve tt
     else
       remoteResult ← coreCommand "git remote get-url origin";
       if success remoteResult then
         let repoUrl := browserUrl (Js.trim (stdout remoteResult)) in
         went ← await (OpenExternal repoUrl);
         match went with
         | Done _ => Resolve tt
         | Failed e => Reject e
         end
       else Reject (Error "リモートリポジトリのURLを取得できませんでした"))
    Resolve
    (fun _ => Resolve tt).

(** The [catch] block of [execute], entered with the results as they
    stand when the error is thrown. *)
Definition failed (results : ExecutionResults) (e : JsError) : Task unit :=
  let errorMessage := message e in
  _ ← await (ShowErrorMessage ("Git Auto Push エラー: " +:+ errorMessage));
  await (PrintExecutionSummary results).

(** A step of the [try] block that may throw. *)
Definition attempting {A} (results : ExecutionResults) (step : Task A)
    (next : A -> Task unit) : Task unit :=
  settle step next (failed results).

Definition noResults : ExecutionResults :=
  {| gitInit := false; branchSync := false; staging := false;
     commit_ := false; push_ := false; browserOpen := false |}.

(** The steps of [execute] from the check for changes on. *)
Definition stageCommitPush (executionResults : ExecutionResults) : Task unit :=
  attempting executionResults hasChanges (fun changes =>
  if negb changes then
    shouldPush ← await (ShowInformationMessage
                          "変更がありませんが、プッシュしますか？" false ["はい"; "いいえ"]);
    if JsText.same shouldPush "はい" then
      attempting executionResults push (fun _ =>
      let executionResults :=
        set_commit true (set_staging true (set_push true executionResults)) in
      await (PrintExecutionSummary executionResults))
    else await (PrintExecutionSummary executionResults)
  else
    shouldStage ← await (ShowInformationMessage
                           "変更をステージングしますか？" false ["はい"; "いいえ"]);
    if negb (JsText.same shouldStage "はい") then
      await (PrintExecutionSummary executionResults)
    else
      attempting executionResults addAll (fun _ =>
      let executionResults := set_staging true executionResults in
      value ← await (ConfigString "defaultCommitMessage" "Auto commit");
      commitMessage ← await (ShowInputBox "コミットメッセージを入力してください" value);
      match commitMessage with
      | None | Some EmptyString => await (PrintExecutionSummary executionResults)
      | Some commitMessage =>
        attempting executionResults (commit commitMessage) (fun _ =>
        let executionResults := set_commit true executionResults in
        shouldPush ← await (ShowInformationMessage
                              "プッシュしますか？" false ["はい"; "いいえ"]);
        let finish (executionResults : ExecutionResults) : Task unit :=
          _ ← await (ShowInformationMessage "Git Auto Push が完了しました！" false []);
          await (PrintExecutionSummary executionResults) in
        if JsText.same shouldPush "はい" then
          attempting executionResults push (fun _ =>
          let executionResults := set_push true executionResults in
          autoOpen ← await (ConfigBool "autoOpenBrowser" true);
          if autoOpen : bool then
            attempting executionResults openInBrowser (fun _ =>
            finish (set_browserOpen true executionResults))
          else finish executionResults)
        else finish executionResults)
      end)).

(** The steps of [execute] from the divergence check on. *)
Definition syncThenPush (executionResults : ExecutionResults) : Task unit :=
  attempting executionResults (lift (checkBranchDivergence workspaceRoot)) (fun diverged =>
  if diverged : bool then
    attempting executionResults (lift (handleBranchDivergence workspaceRoot)) (fun resolved =>
    let executionResults := set_branchSync resolved executionResults in
    if negb resolved then await (PrintExecutionSummary executionResults)
    else stageCommitPush executionResults)
  else stageCommitPush (set_branchSync true executionResults)).

Definition execute : Task unit :=
  let executionResults := noResults in
  let name := repoName "現在のリポジトリ" in
  let confirmMessage :=
    "操作対象のリポジトリ: " +:+ name +:+ LF +:+ workspaceRootString +:+ LF +:+ LF
    +:+ "このリポジトリでよろしいですか？" in
  confirm ← await (ShowInformationMessage confirmMessage true ["はい"; "キャンセル"]);
  if negb (JsText.same confirm "はい") then
    _ ← await (ShowInformationMessage "処理をキャンセルしました" false []);
    Resolve tt
  else
    attempting executionResults
      (of_outcome (analyzeCurrentDirectory fs platformInfo workspaceRoot))
      (fun analysis =>
    let afterWarning (rest : Task unit) : Task unit :=
      match warningMessage analysis with
      | None | Some EmptyString => rest
      | Some text =>
        shouldContinue ← lift (ask (ShowWarningMessage text ["続行"; "キャンセル"]));
        if negb (JsText.same shouldContinue "続行") then Resolve tt else rest
      end in
    afterWarning
      (if negb (isGitRepo analysis) then
         shouldInit ← lift (ask (ShowWarningMessage
                        "Gitリポジトリではありません。初期化しますか？" ["はい"; "いいえ"]));
         if JsText.same shouldInit "はい" then
           attempting executionResults initGitRepository (fun _ =>
           syncThenPush (set_gitInit true executionResults))
         else Resolve tt
       else syncThenPush executionResults)).

End Extension.

(** ** Properties of every run *)

(** [P] holds of the trace and the result of [t] whatever the host
    answers. *)
Fixpoint every_run {A} (t : Task A) (P : list uio -> outcome A -> Prop) : Prop :=
  match t with
  | Resolve a => P [] (Returns a)
  | Reject e => P [] (Throws e)
  | Stall => P [] OutOfFuel
  | Await ev k => forall x, every_run (k x) (fun tr r => P (Uio ev x :: tr) r)
  end.

(** The first answer a command got. *)
Fixpoint answer_to (command : string) (l : list (string * ExecAnswer)) : option ExecAnswer :=
  match l with
  | [] => None
  | (c, a) :: rest => if String.eqb c command then Some a else answer_to command rest
  end.

(** The answer given to a question, if it was asked. *)
Fixpoint reply_to (question : string) (l : list (string * option string))
  : option (option string) :=
  match l with
  | [] => None
  | (q, a) :: rest => if String.eqb q question then Some a else reply_to question rest
  end.

(** The operator was asked [question] and chose [item]. *)
Definition chose (trace : list uio) (question item : string) : bool :=
  existsb (fun qa => String.eqb qa.1 question && JsText.same qa.2 item) (dialogs trace).

(** A command that begins with [prefix] was run. *)
Definition ran_any (trace : list uio) (prefix : string) : bool :=
  existsb (fun c => Js.startsWith c prefix) (ran trace).

(** A command that begins with [prefix] was run and succeeded. *)
Definition succeeded_any (trace : list uio) (prefix : string) : bool :=
  existsb (fun ca => Js.startsWith ca.1 prefix && succeeded ca.2) (execs trace).

(** The query printed something other than white space. *)
Definition printed (a : ExecAnswer) : bool :=
  succeeded a && negb (JsText.falsy (Js.trim (stdout (settled a)))).

(** The commands with which [ensureGitIdentity] fills in an identity. *)
Definition set_name_command : string :=
  "git config user.name " +:+ DQ +:+ "Auto Committer" +:+ DQ.

Definition set_email_command : string :=
  "git config user.email " +:+ DQ +:+ "autocommit@example.com" +:+ DQ.

(** The messages of the error dialogs. *)
Definition error_of (i : uio) : list string :=
  match i with
  | Uio ev _ =>
    match ev with
    | ShowErrorMessage text => [text]
    | _ => []
    end
  end.

Definition errors (trace : list uio) : list string := flat_map error_of trace.

(** The branch [push] pushes: the one [git branch --show-current] printed,
    or [main] when the query failed. *)
Definition pushed_branch (a : ExecAnswer) : string :=
  if succeeded a then Js.trim (stdout (settled a)) else "main".

(** Whether the first question of a trace was answered [はい]. *)
Definition first_answer (trace : list uio) : option bool :=
  match dialogs trace with
  | (_, a) :: _ => Some (JsText.same a "はい")
  | [] => None
  end.

(** ** What a run of [execute] shows

    The commands that change the repository or the remote in the ordinary
    course of [execute], the questions that allow them, and what is
    reported at the end. [git push origin] and [git push -u] are the pushes
    of [push]; the forced push of the resolver is not among them. *)

Record Digest := {
  confirmed : option bool;
  commanded : bool;
  init_ran : bool;
  add_ran : bool;
  commit_ran : bool;
  push_ran : bool;
  init_ok : bool;
  add_ok : bool;
  commit_ok : bool;
  push_ok : bool;
  init_agreed : bool;
  stage_agreed : bool;
  push_agreed : bool;
  idle_push_agreed : bool;
  summarised : list ExecutionResults;
  reported : list string
}.

Definition digest (trace : list uio) : Digest :=
  {| confirmed := first_answer trace;
     commanded := ran_any trace "";
     init_ran := ran_any trace "git init";
     add_ran := ran_any trace "git add";
     commit_ran := ran_any trace "git commit";
     push_ran := ran_any trace "git push origin" || ran_any trace "git push -u";
     init_ok := succeeded_any trace "git init";
     add_ok := succeeded_any trace "git add";
     commit_ok := succeeded_any trace "git commit";
     push_ok := succeeded_any trace "git push origin"
                || succeeded_any trace "git push -u";
     init_agreed := chose trace "Gitリポジトリではありません。初期化しますか？" "はい";
     stage_agreed := chose trace "変更をステージングしますか？" "はい";
     push_agreed := chose trace "プッシュしますか？" "はい";
     idle_push_agreed := chose trace "変更がありませんが、プッシュしますか？" "はい";
     summarised := summaries trace;
     reported := errors trace |}.

(** The digest of two traces, one after the other. *)
Definition merge (d d' : Digest) : Digest :=
  {| confirmed := match confirmed d with Some b => Some b | None => confirmed d' end;
     commanded := commanded d || commanded d';
     init_ran := init_ran d || init_ran d';
     add_ran := add_ran d || add_ran d';
     commit_ran := commit_ran d || commit_ran d';
     push_ran := push_ran d || push_ran d';
     init_ok := init_ok d || init_ok d';
     add_ok := add_ok d || add_ok d';
     commit_ok := commit_ok d || commit_ok d';
     push_ok := push_ok d || push_ok d';
     init_agreed := init_agreed d || init_agreed d';
     stage_agreed := stage_agreed d || stage_agreed d';
     push_agreed := push_agreed d || push_agreed d';
     idle_push_agreed := idle_push_agreed d || idle_push_agreed d';
     summarised := summarised d ++ summarised d';
     reported := reported d ++ reported d' |}.

(** The digests of the steps of [execute]: a step that may ask a question
    of its own and may run commands, none of them among those above; a
    commit; a push. *)
Definition aside (first : option bool) (ran : bool) : Digest :=
  {| confirmed := first; commanded := ran;
     init_ran := false; add_ran := false; commit_ran := false; push_ran := false;
     init_ok := false; add_ok := false; commit_ok := false; push_ok := false;
     init_agreed := false; stage_agreed := false; push_agreed := false;
     idle_push_agreed := false; summarised := []; reported := [] |}.

Definition committed (ok : bool) : Digest :=
  {| confirmed := None; commanded := true;
     init_ran := false; add_ran := false; commit_ran := true; push_ran := false;
     init_ok := false; add_ok := false; commit_ok := ok; push_ok := false;
     init_agreed := false; stage_agreed := false; push_agreed := false;
     idle_push_agreed := false; summarised := []; reported := [] |}.

Definition pushed (first : option bool) (ok : bool) : Digest :=
  {| confirmed := first; commanded := true;
     init_ran := false; add_ran := false; commit_ran := false; push_ran := true;
     init_ok := false; add_ok := false; commit_ok := false; push_ok := ok;
     init_agreed := false; stage_agreed := false; push_agreed := false;
     idle_push_agreed := false; summarised := []; reported := [] |}.

Definition returned {A} (r : outcome A) : bool :=
  match r with
  | Returns _ => true
  | _ => false
  end.

(** The first question was not answered [はい]. *)
Definition cancelled (d : Digest) : bool :=
  match confirmed d with
  | Some true => false
  | _ => true
  end.

Definition is_nil {A} (l : list A) : bool :=
  match l with
  | [] => true
  | _ => false
  end.

Definition only (l : list string) (text : string) : bool :=
  match l with
  | [t] => String.eqb t text
  | _ => false
  end.

(** What a summary may say of a run. *)
Definition flags_hold (repo : bool) (d : Digest) (s : ExecutionResults) : bool :=
  implb (gitInit s) (init_ok d && negb repo)
  && implb (negb (branchSync s)) (negb (add_ran d || commit_ran d || push_ran d))
  && implb (staging s) (add_ok d || negb (add_ran d) && commit_ s && push_ s)
  && implb (commit_ s) (commit_ok d || negb (commit_ran d) && staging s && push_ s)
  && implb (push_ s) (push_ok d)
  && implb (browserOpen s) (push_ s && commit_ s && staging s).

(** What holds of every run of [execute], for a folder that is a
    repository ([repo]) or not. *)
Definition sound (repo : bool) (d : Digest) : bool :=
  implb (cancelled d)
        (negb (commanded d) && is_nil (summarised d) && is_nil (reported d))
  && implb (init_ran d) (negb repo && init_agreed d)
  && implb (add_ran d) (stage_agreed d)
  && implb (commit_ran d) (add_ok d)
  && implb (push_ran d) (push_agreed d || idle_push_agreed d)
  && implb (add_ran d && negb (add_ok d))
           (negb (commit_ran d) && negb (push_ran d)
            && only (reported d) "Git Auto Push エラー: ステージングに失敗しました")
  && implb (commit_ran d && negb (commit_ok d))
           (negb (push_ran d)
            && only (reported d) "Git Auto Push エラー: コミットに失敗しました")
  && implb (idle_push_agreed d && push_ok d)
           (negb (add_ran d) && negb (commit_ran d)
            && negb (is_nil (summarised d))
            && forallb (fun s => staging s && commit_ s && push_ s) (summarised d))
  && (length (summarised d) <=? 1)
  && (length (reported d) <=? length (summarised d))
  && forallb (flags_hold repo d) (summarised d).

(** The warnings of the classifier. *)
Definition warnings : list string :=
  ["⚠️ システムフォルダでのgit init は推奨されません";
   "⚠️ 既存のGitリポジトリ内にネストされています"].

(** ** Operators

    An operator who takes the first item of every dialog and keeps the
    proposed commit message, on a machine where every command succeeds
    except those that begin with [broken], and where
    [git status --porcelain] prints [changes]. *)
Definition operator (broken : option string) (changes : string) : Host :=
  {| hstate := unit;
     answer X ev h :=
       match ev in UiEvent T return T * unit with
       | Core ev' =>
         match ev' in Event T return T * unit with
         | ShowQuickPick items _ => (head items, h)
         | ShowWarningMessage _ items => (head items, h)
         | Exec command _ =>
           (if match broken with
               | Some prefix => Js.startsWith command prefix
               | None => false
               end
            then ExecCallback
                   (Some {| code := Some (ExitCode 1); killed := false; signal := None |})
                   "" ""
            else ExecCallback None
                   (if String.eqb command "git status --porcelain" then changes else "")
                   "",
            h)
         end
       | ShowInformationMessage _ _ items => (head items, h)
       | ShowErrorMessage _ => (tt, h)
       | ShowInputBox _ value => (Some value, h)
       | ShowQuickPickOf items _ => (head items, h)
       | ConfigString _ fallback => (fallback, h)
       | ConfigBool _ fallback => (fallback, h)
       | OpenExternal _ => (Done true, h)
       | PrintExecutionSummary _ => (tt, h)
       end |}.

(** An operator who dismisses every dialog. *)
Definition bystander : Host :=
  {| hstate := unit;
     answer X ev h :=
       match ev in UiEvent T return T * unit with
       | Core ev' =>
         match ev' in Event T return T * unit with
         | ShowQuickPick _ _ => (None, h)
         | ShowWarningMessage _ _ => (None, h)
         | Exec _ _ => (ExecCallback None "" "", h)
         end
       | ShowInformationMessage _ _ _ => (None, h)
       | ShowErrorMessage _ => (tt, h)
       | ShowInputBox _ _ => (None, h)
       | ShowQuickPickOf _ _ => (None, h)
       | ConfigString _ fallback => (fallback, h)
       | ConfigBool _ fallback => (fallback, h)
       | OpenExternal _ => (Done true, h)
       | PrintExecutionSummary _ => (tt, h)
       end |}.

(** A Windows host, as [detectPlatform] describes it. *)
Definition windowsHost : PlatformInfo := detectPlatform sample_disk "win32" "10.0".

(** ** The standalone scripts, after their arguments

    What a script asks of the machine it runs on. A command ends with an
    exit status and has written to its standard output. For a [for /f] loop
    of the batch script that sets a variable, the machine answers with the
    value of the variable after the loop: how [cmd] splits the output into
    tokens, and what the variable held before, is the machine's business.
    The [echo] lines, and what is substituted into them, are left out. *)
Inductive ShellEvent : Type -> Type :=
| IsDirectory (name : string) : ShellEvent bool
| Exists (name : string) : ShellEvent bool
| Command (argv : list string) : ShellEvent (Z * string)
| CommandLine (line : string) : ShellEvent Z
| ForF (command variable : string) : ShellEvent string.

Inductive Script : Type :=
| ExitWith (code : Z)
| Asks (X : Type) (ev : ShellEvent X) (k : X -> Script).

Arguments Asks {X} ev k.

Record Machine := {
  mstate : Type;
  reply : forall X : Type, ShellEvent X -> mstate -> X * mstate
}.

Inductive asked : Type :=
| Asked (X : Type) (ev : ShellEvent X) (x : X).

Arguments Asked {X} ev x.

Fixpoint play (M : Machine) (s : Script) (m : mstate M) : Z * list asked :=
  match s with
  | ExitWith code => (code, [])
  | Asks ev k =>
    let '(x, m1) := reply M _ ev m in
    let '(code, tr) := play M (k x) m1 in
    (code, Asked ev x :: tr)
  end.

(** [P] holds of the exit status and the trace of [s] on every machine. *)
Fixpoint every_play (s : Script) (P : Z -> list asked -> Prop) : Prop :=
  match s with
  | ExitWith code => P code []
  | Asks ev k => forall x, every_play (k x) (fun code tr => P code (Asked ev x :: tr))
  end.

(** The commands of a trace with their exit status. *)
Definition command_run (i : asked) : list (list string * Z) :=
  match i with
  | Asked ev x =>
    match ev in ShellEvent T return T -> list (list string * Z) with
    | Command argv => fun a => [(argv, a.1)]
    | CommandLine line => fun a => [([line], a)]
    | _ => fun _ => []
    end x
  end.

Definition commands_run (trace : list asked) : list (list string * Z) :=
  flat_map command_run trace.

(** The standard output of the first run of a command. *)
Fixpoint output_of (argv : list string) (trace : list asked) : option string :=
  match trace with
  | [] => None
  | Asked ev x :: rest =>
    match ev in ShellEvent T return T -> option string with
    | Command argv' =>
      fun a => if bool_decide (argv' = argv) then Some a.2 else output_of argv rest
    | _ => fun _ => output_of argv rest
    end x
  end.

(** [$(...)]: the standard output without its trailing newlines. *)
Fixpoint chomp (reversed : string) : string :=
  match reversed with
  | String c rest => if Ascii.eqb c "010"%char then chomp rest else reversed
  | EmptyString => EmptyString
  end.

Definition captured (out : string) : string := Js.reverse (chomp (Js.reverse out)).

(** [set -e]: a command that fails ends the script with its status. *)
Definition or_exit (argv : list string) (next : string -> Script) : Script :=
  Asks (Command argv) (fun a => if Z.eqb a.1 0 then next a.2 else ExitWith a.1).

(** git-auto-push.sh, lines 41 to 93, under [set -e], after the loop over
    the arguments. [$FORCE_PUSH] is empty or the one word [--force]. *)
Definition Sh_main (args : list string) : Script :=
  match Sh.parse_args args unset_vars with
  | Sh.Exit code => ExitWith code
  | Sh.Parsed vars =>
    Asks (IsDirectory ".git") (fun isRepo =>
    if negb isRepo then ExitWith 1
    else
      Asks (Command ["git"; "branch"; "--show-current"]) (fun queried =>
      let CURRENT_BRANCH :=
        captured (if Z.eqb queried.1 0 then queried.2
                  else queried.2 +:+ "main" +:+ LF) in
      let BRANCH := if String.eqb (BRANCH vars) "" then CURRENT_BRANCH else BRANCH vars in
      Asks (Command ["git"; "status"; "--porcelain"]) (fun status =>
      if String.eqb (captured status.2) "" then ExitWith 0
      else
        or_exit ["git"; "add"; "."] (fun _ =>
        let commit (COMMIT_MESSAGE : string) : Script :=
          or_exit ["git"; "commit"; "-m"; COMMIT_MESSAGE] (fun _ =>
          or_exit (["git"; "push"; "origin"; BRANCH]
                   ++ (if String.eqb (FORCE_PUSH vars) "" then [] else [FORCE_PUSH vars]))
            (fun _ => ExitWith 0)) in
        if String.eqb (COMMIT_MESSAGE vars) "" then
          or_exit ["date"; "+%Y-%m-%d %H:%M:%S"] (fun now =>
          commit ("Auto commit: " +:+ captured now))
        else commit (COMMIT_MESSAGE vars)))))
  end.

(** git-auto-push.bat, label [:start], lines 35 to 100. *)
Definition Bat_start (vars : ScriptVars) : Script :=
  Asks (Exists ".git") (fun isRepo =>
  if negb isRepo then ExitWith 1
  else
    Asks (ForF "git branch --show-current 2>nul" "CURRENT_BRANCH") (fun CURRENT_BRANCH =>
    let CURRENT_BRANCH :=
      if String.eqb CURRENT_BRANCH "" then "main" else CURRENT_BRANCH in
    let BRANCH := if String.eqb (BRANCH vars) "" then CURRENT_BRANCH else BRANCH vars in
    Asks (CommandLine "git status --porcelain") (fun errorlevel =>
    if negb (Z.eqb errorlevel 0) then ExitWith 0
    else
      Asks (CommandLine "git add .") (fun errorlevel =>
      if negb (Z.eqb errorlevel 0) then ExitWith 1
      else
        let commit (COMMIT_MESSAGE : string) : Script :=
          Asks (CommandLine ("git commit -m " +:+ DQ +:+ COMMIT_MESSAGE +:+ DQ))
            (fun errorlevel =>
          if negb (Z.eqb errorlevel 0) then ExitWith 1
          else
            Asks (CommandLine
                    (if String.eqb (FORCE_PUSH vars) "" then "git push origin " +:+ BRANCH
                     else "git push origin " +:+ BRANCH +:+ " " +:+ FORCE_PUSH vars))
              (fun errorlevel =>
            if negb (Z.eqb errorlevel 0) then ExitWith 1 else ExitWith 0)) in
        if String.eqb (COMMIT_MESSAGE vars) "" then
          Asks (ForF "date /t" "DATE") (fun DATE =>
          Asks (ForF "time /t" "TIME") (fun TIME =>
          commit ("Auto commit: " +:+ DATE +:+ " " +:+ TIME)))
        else commit (COMMIT_MESSAGE vars))))).

(** git-auto-push.bat, from its first line. *)
Definition Bat_main (args : list string) : Script :=
  Bat_start (Bat.parse_args args unset_vars).

(** The command lines of a trace. *)
Definition argvs (trace : list asked) : list (list string) :=
  map fst (commands_run trace).

(** A machine on which the commands that begin with [broken] end with
    [status], and the others succeed and print [out]. *)
Definition faulty (broken : list string) (status : Z) (out : string) : Machine :=
  {| mstate := unit;
     reply X ev m :=
       match ev in ShellEvent T return T * unit with
       | IsDirectory _ => (true, m)
       | Exists _ => (true, m)
       | Command argv =>
         ((if bool_decide (take (length broken) argv = broken) then status else 0%Z, out), m)
       | CommandLine _ => (0%Z, m)
       | ForF _ _ => (out, m)
       end |}.

(** The command [argv] was run. *)
Definition ran_command (argv : list string) (trace : list asked) : bool :=
  bool_decide (argv ∈ argvs trace).

(** The exit status of the first run of a command line. *)
Fixpoint errorlevel_of (line : string) (trace : list asked) : option Z :=
  match trace with
  | [] => None
  | Asked ev x :: rest =>
    match ev in ShellEvent T return T -> option Z with
    | CommandLine line' =>
      fun a => if String.eqb line' line then Some a else errorlevel_of line rest
    | _ => fun _ => errorlevel_of line rest
    end x
  end.

(** ** Proof steps *)

(** Unfolds the plumbing of [outcome] without touching string functions. *)
Ltac plumb :=
  cbn [mbind mret outcome_bind outcome_ret obind call try_catch
       isGitRepository].

(** Reduces a run of [analyzeCurrentDirectory] to the values of its probes,
    given the proof [probes] that they return. *)
Ltac run_analysis probes :=
  destruct probes as (empty & sources & nested & Hempty & Hsources & Hnested);
  unfold analyzeCurrentDirectory;
  rewrite Hempty, Hsources, Hnested; plumb.

(** * Theorems *)

(** ** The classifier returns *)

Section ClassifierFacts.

Variable fs : FileSystem.
Variable platformInfo : PlatformInfo.
Variable workspaceRoot : path.

Lemma isDirectoryEmpty_returns :
  exists b, isDirectoryEmpty fs workspaceRoot = Returns b.
Proof.
  unfold isDirectoryEmpty.
  destruct (readdirSync fs workspaceRoot) as [files|e]; plumb; eauto.
Qed.

Lemma scanFiles_no_fuel files : scanFiles fs workspaceRoot files <> OutOfFuel.
Proof.
  induction files as [|file rest IH]; cbn [scanFiles]; [discriminate|].
  destruct (statSync fs (Path.join workspaceRoot file)) as [stat|e]; plumb;
    [|discriminate].
  destruct (isFile stat).
  - destruct (_ || _); [discriminate|exact IH].
  - destruct (isDirectory stat); [|exact IH].
    destruct (Js.array_includes _ _); [discriminate|exact IH].
Qed.

Lemma hasSourceFiles_returns :
  exists b, hasSourceFiles fs workspaceRoot = Returns b.
Proof.
  unfold hasSourceFiles.
  destruct (readdirSync fs workspaceRoot) as [files|e]; plumb; eauto.
  pose proof (scanFiles_no_fuel files) as H.
  destruct (scanFiles fs workspaceRoot files); plumb; eauto. congruence.
Qed.

Lemma at_root (root current : path) :
  proot current = proot root -> psegs root = [] ->
  current = root <-> psegs current = [].
Proof.
  destruct root as [r rs], current as [c cs]; cbn. intros -> ->.
  split; [intros [= ->]; reflexivity | intros ->; reflexivity].
Qed.

Lemma length_removelast {A} (l : list A) :
  l <> [] -> S (length (removelast l)) = length l.
Proof.
  intros H. destruct (exists_last H) as (l' & x & ->).
  rewrite removelast_last, length_app. cbn. lia.
Qed.

(** The walk ends within its budget: one iteration per segment of
    [current] and one for the root. *)
Lemma walkUp_returns (root : path) :
  psegs root = [] ->
  forall fuel current,
    proot current = proot root ->
    length (psegs current) < fuel ->
    exists b, walkUp fs fuel root current = Returns b.
Proof.
  intros Hroot fuel. induction fuel as [|fuel IH]; intros current Hsame Hlen.
  - lia.
  - cbn [walkUp]. case_bool_decide as Heq; [eauto|].
    destruct (existsSync fs (Path.join current ".git")); [eauto|].
    apply IH; [exact Hsame|].
    assert (psegs current <> []) as Hne
      by (intros E; apply Heq, at_root; assumption).
    cbn [Path.dirname psegs]. pose proof (length_removelast _ Hne). lia.
Qed.

Lemma isNestedInGitRepo_returns :
  exists b, isNestedInGitRepo fs workspaceRoot = Returns b.
Proof.
  unfold isNestedInGitRepo. plumb.
  destruct (existsSync fs (gitPath workspaceRoot)); [eauto|].
  apply walkUp_returns; cbn; auto.
Qed.

Lemma probes_return :
  exists empty sources nested,
    isDirectoryEmpty fs workspaceRoot = Returns empty
    /\ hasSourceFiles fs workspaceRoot = Returns sources
    /\ isNestedInGitRepo fs workspaceRoot = Returns nested.
Proof.
  destruct isDirectoryEmpty_returns as [empty He].
  destruct hasSourceFiles_returns as [sources Hh].
  destruct isNestedInGitRepo_returns as [nested Hn].
  eauto 7.
Qed.

End ClassifierFacts.



(** C4. For every analysis, [gitInitRecommended] holds exactly for the
    labels [empty_folder], [source_project] and [general_folder] (and fails
    for [existing_git_repo], [system_folder] and [nested_in_repo]), a
    warning is present exactly for [system_folder] and [nested_in_repo], and
    a directory with a [.git] entry is labelled [existing_git_repo] with no
    recommendation to initialise, whatever else it holds. *)
Theorem gitInit_and_warning_by_label fs platformInfo workspaceRoot a :
  analyzeCurrentDirectory fs platformInfo workspaceRoot = Returns a ->
  (gitInitRecommended a = true <->
     folderType a = "empty_folder" \/ folderType a = "source_project"
     \/ folderType a = "general_folder")
  /\ (gitInitRecommended a = false <->
     folderType a = "existing_git_repo" \/ folderType a = "system_folder"
     \/ folderType a = "nested_in_repo")
  /\ ((exists text, warningMessage a = Some text /\ text <> "") <->
     folderType a = "system_folder" \/ folderType a = "nested_in_repo")
  /\ (warningMessage a = None <->
     ~ (folderType a = "system_folder" \/ folderType a = "nested_in_repo"))
  /\ (existsSync fs (Path.join workspaceRoot ".git") = true ->
      folderType a = "existing_git_repo" /\ gitInitRecommended a = false).
Proof.
  run_analysis (probes_return fs workspaceRoot).
  fold (gitPath workspaceRoot).
  destruct (existsSync fs (gitPath workspaceRoot)) eqn:Hgit,
           (isSystemFolder platformInfo workspaceRoot) eqn:Hsys,
           nested, empty, sources;
    intros [= <-]; cbn;
    repeat split; intros;
    repeat match goal with
           | H : exists _, _ |- _ => destruct H as [? [? ?]]
           end;
    try (eexists; split; [reflexivity | discriminate]);
    intuition congruence.
Qed.

Lemma gitInit_and_warning_by_label_witness :
  exists a,
    analyzeCurrentDirectory sample_disk linuxHost (posix ["repo"]) = Returns a
    /\ folderType a = "existing_git_repo" /\ gitInitRecommended a = false.
Proof.
  eexists. split; [vm_compute; reflexivity|].
  refine (proj2 (proj2 (proj2 (proj2
            (gitInit_and_warning_by_label sample_disk linuxHost (posix ["repo"]) _ _)))) _);
    vm_compute; reflexivity.
Defined.

(** C7. The classifier never raises: when the directory cannot be listed,
    [isDirectoryEmpty] and [hasSourceFiles] both return [false]; every probe
    returns a boolean on every file system; and [analyzeCurrentDirectory]
    returns an analysis with each of its fields set. *)
Theorem classifier_never_raises fs platformInfo workspaceRoot :
  (forall e, readdirSync fs workspaceRoot = Failed e ->
     isDirectoryEmpty fs workspaceRoot = Returns false
     /\ hasSourceFiles fs workspaceRoot = Returns false)
  /\ (exists b, isDirectoryEmpty fs workspaceRoot = Returns b)
  /\ (exists b, hasSourceFiles fs workspaceRoot = Returns b)
  /\ (exists b, isNestedInGitRepo fs workspaceRoot = Returns b)
  /\ (exists a,
       analyzeCurrentDirectory fs platformInfo workspaceRoot = Returns a
       /\ folderType a <> "unknown" /\ actionRecommendation a <> "").
Proof.
  split; [|split; [|split; [|split]]].
  - intros e He. unfold isDirectoryEmpty, hasSourceFiles. rewrite He. plumb. auto.
  - apply isDirectoryEmpty_returns.
  - apply hasSourceFiles_returns.
  - apply isNestedInGitRepo_returns.
  - run_analysis (probes_return fs workspaceRoot).
    destruct (existsSync fs (gitPath workspaceRoot)),
             (isSystemFolder platformInfo workspaceRoot),
             nested, empty, sources;
      eexists; (split; [reflexivity | split; discriminate]).
Qed.

Lemma classifier_never_raises_witness :
  isDirectoryEmpty sample_disk (posix ["locked"]) = Returns false
  /\ hasSourceFiles sample_disk (posix ["locked"]) = Returns false.
Proof.
  refine (proj1 (classifier_never_raises sample_disk linuxHost (posix ["locked"]))
            (Error "EACCES: permission denied") _).
  vm_compute; reflexivity.
Defined.

(** ** The upward walk *)

Section WalkFacts.

Variable fs : FileSystem.

Lemma walkUp_probe rootname rev_segs :
  forall fuel,
    length rev_segs < fuel ->
    walkUp fs fuel {| proot := rootname; psegs := [] |}
                   {| proot := rootname; psegs := rev rev_segs |}
    = Returns (probe_up fs rootname rev_segs).
Proof.
  induction rev_segs as [|seg up IH]; intros [|fuel] Hfuel; cbn in Hfuel; try lia.
  - cbn [walkUp rev]. rewrite bool_decide_eq_true_2 by reflexivity. reflexivity.
  - cbn [walkUp probe_up].
    rewrite bool_decide_eq_false_2.
    2:{ intros [= E]. cbn in E. destruct (rev up); discriminate E. }
    unfold has_git_metadata.
    destruct (existsSync fs _); [reflexivity|].
    unfold Path.dirname. cbn [orb psegs proot rev].
    rewrite removelast_last. apply IH. lia.
Qed.

Lemma probe_up_ancestors rootname up :
  probe_up fs rootname up = true <->
  exists dir,
    dir ∈ {| proot := rootname; psegs := rev up |} :: ancestors_of rootname up
    /\ psegs dir <> [] /\ has_git_metadata fs dir = true.
Proof.
  induction up as [|seg up IH].
  - cbn. split; [discriminate|].
    intros (dir & Hin & Hne & _). apply list_elem_of_singleton in Hin.
    subst dir. cbn in Hne. congruence.
  - cbn [probe_up ancestors_of]. rewrite orb_true_iff, IH. split.
    + intros [Hgit | (dir & Hin & Hne & Hgit)].
      * eexists. split; [apply elem_of_cons; left; reflexivity|]. split; [|exact Hgit].
        cbn. intros E. destruct (rev up); discriminate E.
      * exists dir. split; [apply elem_of_cons; right; exact Hin|]. auto.
    + intros (dir & Hin & Hne & Hgit). apply elem_of_cons in Hin.
      destruct Hin as [-> | Hin]; [left; exact Hgit|].
      right. exists dir. auto.
Qed.

(** X7. For a directory that is not a repository itself, the walk answers
    [true] exactly when a directory above it and below the root has a
    [.git] entry. *)
Lemma isNestedInGitRepo_below_root workspaceRoot :
  existsSync fs (gitPath workspaceRoot) = false ->
  isNestedInGitRepo fs workspaceRoot = Returns true <->
  exists dir,
    dir ∈ ancestors workspaceRoot
    /\ psegs dir <> [] /\ has_git_metadata fs dir = true.
Proof.
  intros Hself. unfold isNestedInGitRepo. plumb. rewrite Hself.
  destruct workspaceRoot as [rootname segs].
  unfold ancestors, Path.parse_root, Path.dirname. cbn [proot psegs].
  destruct (rev segs) as [|seg up] eqn:Hrev.
  - apply (f_equal (@rev string)) in Hrev. rewrite rev_involutive in Hrev.
    subst segs. cbn. rewrite bool_decide_eq_true_2 by reflexivity.
    split; [discriminate|]. intros (dir & Hin & _). apply elem_of_nil in Hin. destruct Hin.
  - apply (f_equal (@rev string)) in Hrev. rewrite rev_involutive in Hrev.
    subst segs. cbn [rev]. rewrite removelast_last.
    rewrite walkUp_probe by (rewrite length_rev; lia).
    cbn [ancestors_of]. rewrite <- probe_up_ancestors.
    split; [intros [= ->]; reflexivity | intros ->; reflexivity].
Qed.

Lemma isNestedInGitRepo_skipped workspaceRoot :
  existsSync fs (gitPath workspaceRoot) = true ->
  isNestedInGitRepo fs workspaceRoot = Returns false.
Proof. intros H. unfold isNestedInGitRepo. plumb. rewrite H. reflexivity. Qed.

End WalkFacts.

(** C5. At a directory inside a repository that starts at the root of the
    file system, the directory is not a repository itself, the root is one
    of its ancestors and holds git metadata, and the walk still answers
    [false]: it stops on reaching the root without probing it. The same
    happens one level further down. *)
Theorem nested_walk_never_probes_root :
  existsSync root_repo_disk (gitPath (posix ["proj"])) = false
  /\ posix [] ∈ ancestors (posix ["proj"])
  /\ has_git_metadata root_repo_disk (posix []) = true
  /\ isNestedInGitRepo root_repo_disk (posix ["proj"]) = Returns false
  /\ isNestedInGitRepo root_repo_disk (posix ["srv"; "app"]) = Returns false
  /\ (exists a,
        analyzeCurrentDirectory root_repo_disk linuxHost (posix ["proj"]) = Returns a
        /\ isNestedRepo a = false /\ folderType a = "empty_folder"
        /\ gitInitRecommended a = true).
Proof.
  split; [reflexivity|].
  split; [apply elem_of_cons; left; reflexivity|].
  split; [reflexivity|].
  split; [reflexivity|].
  split; [reflexivity|].
  eexists. split; [vm_compute; reflexivity|]. repeat split.
Qed.

(** C6, as stated, fails: in a linked work tree [.git] is a regular file;
    no subdirectory of that name exists, and [isGitRepo] is [true]. *)
Lemma isGitRepo_without_git_subdirectory :
  exists a,
    analyzeCurrentDirectory sample_disk linuxHost (posix ["worktree"]) = Returns a
    /\ isGitRepo a = true
    /\ ~ has_git_subdirectory sample_disk (posix ["worktree"]).
Proof.
  eexists. split; [vm_compute; reflexivity|]. split; [reflexivity|].
  intros (_ & stat & Hstat & Hdir). vm_compute in Hstat.
  injection Hstat as <-. discriminate Hdir.
Qed.

(** C6, amended. [isGitRepo] is [true] if and only if [existsSync] finds an
    entry named [.git] directly under the analysed path; on a file tree this
    is any regular file or directory of that name, and the kind of the entry
    is not looked at. *)
Theorem isGitRepo_iff_git_entry_exists :
  (forall fs platformInfo workspaceRoot a,
     analyzeCurrentDirectory fs platformInfo workspaceRoot = Returns a ->
     (isGitRepo a = true <-> existsSync fs (Path.join workspaceRoot ".git") = true))
  /\ (forall rootname tree platformInfo workspaceRoot a,
     analyzeCurrentDirectory (disk rootname tree) platformInfo workspaceRoot = Returns a ->
     (isGitRepo a = true <->
      exists n, node_at rootname tree (Path.join workspaceRoot ".git") = Some n
                /\ file_or_directory n)).
Proof.
  assert (forall fs platformInfo workspaceRoot a,
     analyzeCurrentDirectory fs platformInfo workspaceRoot = Returns a ->
     isGitRepo a = existsSync fs (Path.join workspaceRoot ".git")) as Hfield.
  { intros fs platformInfo workspaceRoot a.
    run_analysis (probes_return fs workspaceRoot).
    fold (gitPath workspaceRoot).
    destruct (existsSync fs (gitPath workspaceRoot)),
             (isSystemFolder platformInfo workspaceRoot), nested, empty, sources;
      intros [= <-]; reflexivity. }
  split.
  - intros fs platformInfo workspaceRoot a Ha. rewrite (Hfield _ _ _ _ Ha). reflexivity.
  - intros rootname tree platformInfo workspaceRoot a Ha. rewrite (Hfield _ _ _ _ Ha).
    cbn [existsSync disk].
    destruct (node_at rootname tree (Path.join workspaceRoot ".git")) as [[c|l es|]|].
    + split; [intros _; eexists; split; [reflexivity|exact I] | reflexivity].
    + split; [intros _; eexists; split; [reflexivity|exact I] | reflexivity].
    + split; [discriminate | intros (n & [= <-] & [])].
    + split; [discriminate | intros (n & [=] & _)].
Qed.

Lemma isGitRepo_iff_git_entry_exists_witness :
  exists a,
    analyzeCurrentDirectory sample_disk linuxHost (posix ["worktree"]) = Returns a
    /\ (isGitRepo a = true <->
        existsSync sample_disk (Path.join (posix ["worktree"]) ".git") = true)
    /\ (isGitRepo a = true <->
        exists n, node_at "/" sample_tree (Path.join (posix ["worktree"]) ".git") = Some n
                  /\ file_or_directory n).
Proof.
  eexists. split; [vm_compute; reflexivity|]. split.
  - refine (proj1 isGitRepo_iff_git_entry_exists sample_disk linuxHost
              (posix ["worktree"]) _ _).
    vm_compute; reflexivity.
  - refine (proj2 isGitRepo_iff_git_entry_exists "/" sample_tree linuxHost
              (posix ["worktree"]) _ _).
    vm_compute; reflexivity.
Defined.

(** The folder choice of extension.ts does look at the kind: among several
    workspace folders it passes over the linked work tree and takes the
    folder whose [.git] is a directory. *)
Example getWorkspaceRoot_wants_directory :
  getWorkspaceRoot sample_disk (Some [posix ["worktree"]; posix ["repo"]])
  = Returns (Some (posix ["repo"])).
Proof. reflexivity. Qed.

(** ** Runs of the command runner *)

Section RunFacts.

Variable W : World.

Lemma run_bind {A B} (m : Prog A) (k : A -> Prog B) (w : wstate W) :
  run W (m ≫= k) w =
  match run W m w with
  | (Returns a, w1, tr) =>
    let '(r, w2, tr') := run W (k a) w1 in (r, w2, tr ++ tr')
  | (Throws e, w1, tr) => (Throws e, w1, tr)
  | (OutOfFuel, w1, tr) => (OutOfFuel, w1, tr)
  end.
Proof.
  revert w. induction m as [a|e|X ev h IH]; intros w.
  - cbn. destruct (run W (k a) w) as [[r w2] tr']. reflexivity.
  - reflexivity.
  - cbn. destruct (respond W X ev w) as [x w1].
    specialize (IH x w1). unfold mbind, Prog_bind in IH. rewrite IH.
    destruct (run W (h x) w1) as [[[a|e|] w2] tr]; cbn; try reflexivity.
    destruct (run W (k a) w2) as [[r w3] tr']. reflexivity.
Qed.

Variable workspaceRoot : path.

Lemma run_runCommand command (w : wstate W) :
  run W (runCommand workspaceRoot command) w =
  let '(answer, w1) := respond W _ (Exec command (execOptions workspaceRoot)) w in
  (Returns (settled answer), w1, [Io (Exec command (execOptions workspaceRoot)) answer]).
Proof.
  unfold runCommand, exec, ask. cbn.
  destruct (respond W _ (Exec command (execOptions workspaceRoot)) w) as [[e|err out errs] w1];
    reflexivity.
Qed.

Lemma success_settled answer : success (settled answer) = succeeded answer.
Proof. destruct answer as [e|[err|] out errs]; reflexivity. Qed.

End RunFacts.

Section StepFacts.

Variable W : World.

(** One request: the outcome is that of the continuation and the command
    list grows by the command, if the request was one. *)
Lemma run_ask_then {A X} (ev : Event X) (k : X -> Prog A) (w w1 : wstate W) x :
  respond W _ ev w = (x, w1) ->
  outcome_of (run W (ask ev ≫= k) w) = outcome_of (run W (k x) w1)
  /\ commands (trace_of (run W (ask ev ≫= k) w))
     = command_of (Io ev x) ++ commands (trace_of (run W (k x) w1)).
Proof.
  intros H. cbn [ask mbind Prog_bind pbind run]. rewrite H.
  destruct (run W (k x) w1) as [[r w2] tr]. split; reflexivity.
Qed.

Lemma run_command_then {A} workspaceRoot command (k : CommandResult -> Prog A)
      (w w1 : wstate W) answer :
  respond W _ (Exec command (execOptions workspaceRoot)) w = (answer, w1) ->
  outcome_of (run W (runCommand workspaceRoot command ≫= k) w)
  = outcome_of (run W (k (settled answer)) w1)
  /\ commands (trace_of (run W (runCommand workspaceRoot command ≫= k) w))
     = command :: commands (trace_of (run W (k (settled answer)) w1)).
Proof.
  intros H. rewrite run_bind, run_runCommand, H.
  destruct (run W (k (settled answer)) w1) as [[r w2] tr]. split; reflexivity.
Qed.

Lemma run_verdict workspaceRoot command (w w1 : wstate W) answer :
  respond W _ (Exec command (execOptions workspaceRoot)) w = (answer, w1) ->
  let r := run W (result ← runCommand workspaceRoot command;
                  if success result then Ret true else Ret false) w in
  outcome_of r = Returns (succeeded answer)
  /\ commands (trace_of r) = [command].
Proof.
  intros H r. subst r.
  destruct (run_command_then workspaceRoot command
              (fun result => if success result then Ret true else Ret false)
              w w1 answer H) as [-> ->].
  rewrite success_settled. destruct (succeeded answer); split; reflexivity.
Qed.

End StepFacts.

Lemma first_line_split (text : string) :
  Js.or_empty (Js.split_newline text !! 0) = until_newline text.
Proof.
  induction text as [|c text IH]; [reflexivity|].
  cbn [Js.split_newline until_newline].
  destruct (Ascii.eqb c "010"); [reflexivity|].
  destruct (Js.split_newline text) as [|h t]; cbn in IH |- *; rewrite <- IH; reflexivity.
Qed.

(** C2. [checkBranchDivergence] issues the status query once. When the
    query fails it returns [false]; otherwise, on the first line of the
    output, it returns [true] when both markers occur, [true] when only
    [behind] occurs, [false] when only [ahead] occurs and [false] when
    neither occurs. *)
Theorem checkBranchDivergence_table workspaceRoot (W : World) (w : wstate W) answer w1 :
  respond W _ (Exec status_query (execOptions workspaceRoot)) w = (answer, w1) ->
  let r := run W (checkBranchDivergence workspaceRoot) w in
  let line := first_line (stdout (settled answer)) in
  commands (trace_of r) = [status_query]
  /\ (succeeded answer = false -> outcome_of r = Returns false)
  /\ (succeeded answer = true ->
      (Js.includes line "ahead" = true -> Js.includes line "behind" = true ->
       outcome_of r = Returns true)
      /\ (Js.includes line "ahead" = false -> Js.includes line "behind" = true ->
          outcome_of r = Returns true)
      /\ (Js.includes line "ahead" = true -> Js.includes line "behind" = false ->
          outcome_of r = Returns false)
      /\ (Js.includes line "ahead" = false -> Js.includes line "behind" = false ->
          outcome_of r = Returns false)).
Proof.
  intros Hanswer r line. subst r line.
  unfold checkBranchDivergence. rewrite run_bind, run_runCommand.
  fold status_query. rewrite Hanswer. cbn [fst snd].
  rewrite success_settled. unfold first_line. rewrite <- first_line_split.
  set (line := Js.or_empty _).
  destruct (succeeded answer); cbn [negb].
  - destruct (Js.includes line "ahead"), (Js.includes line "behind");
      cbn; repeat split; intros; (reflexivity || discriminate).
  - split; [reflexivity|]. split; [reflexivity|discriminate].
Qed.

Lemma checkBranchDivergence_table_witness :
  outcome_of
    (run (scripted None None
            (prints ("## main...origin/main [ahead 1, behind 2]" +:+ LF +:+ " M a.txt" +:+ LF)))
         (checkBranchDivergence (posix ["repo"])) tt)
  = Returns true.
Proof.
  refine (proj1 (proj2 (proj2 (checkBranchDivergence_table (posix ["repo"])
            (scripted None None
               (prints ("## main...origin/main [ahead 1, behind 2]" +:+ LF +:+ " M a.txt" +:+ LF)))
            tt _ tt eq_refl)) _) _ _);
    vm_compute; reflexivity.
Defined.

(** C10. Whenever the status query succeeds, the verdict is whether the
    text [behind] occurs anywhere in the first line. For a branch that is
    level with its upstream and is named [feature/behind-the-scenes], git
    reports no counts, and [checkBranchDivergence] still returns [true]. *)
Theorem divergence_keys_on_substrings :
  (forall workspaceRoot (W : World) (w : wstate W) answer w1,
     respond W _ (Exec status_query (execOptions workspaceRoot)) w = (answer, w1) ->
     succeeded answer = true ->
     outcome_of (run W (checkBranchDivergence workspaceRoot) w)
     = Returns (Js.includes (first_line (stdout (settled answer))) "behind"))
  /\ reports_behind level_branch_line = false
  /\ first_line (level_branch_line +:+ LF +:+ " M notes.txt" +:+ LF) = level_branch_line
  /\ (forall workspaceRoot,
        outcome_of
          (run (scripted None None
                  (prints (level_branch_line +:+ LF +:+ " M notes.txt" +:+ LF)))
               (checkBranchDivergence workspaceRoot) tt)
        = Returns true).
Proof.
  split; [|split; [|split]].
  - intros workspaceRoot W w answer w1 Hanswer Hok.
    unfold checkBranchDivergence. rewrite run_bind, run_runCommand.
    fold status_query. rewrite Hanswer.
    rewrite success_settled, Hok. unfold first_line. rewrite <- first_line_split.
    set (line := Js.or_empty _).
    destruct (Js.includes line "ahead"), (Js.includes line "behind"); reflexivity.
  - vm_compute; reflexivity.
  - vm_compute; reflexivity.
  - intros workspaceRoot. vm_compute; reflexivity.
Qed.

Lemma divergence_keys_on_substrings_witness :
  outcome_of
    (run (scripted None None (prints ("## behind...origin/behind")))
         (checkBranchDivergence (posix ["repo"])) tt)
  = Returns (Js.includes (first_line "## behind...origin/behind") "behind").
Proof.
  refine (proj1 divergence_keys_on_substrings (posix ["repo"])
            (scripted None None (prints ("## behind...origin/behind")))
            tt _ tt eq_refl _).
  vm_compute; reflexivity.
Defined.

(** C3, as stated, fails: with the force push chosen and confirmed, the
    branch query fails, the push to the default [main] succeeds, and the
    resolver returns [true] although one of its commands failed. *)
Lemma force_push_tolerates_failed_query :
  let r := run (scripted (picks "git push --force-with-lease") (Some "はい") old_git)
               (handleBranchDivergence (posix ["repo"])) tt in
  outcome_of r = Returns true
  /\ commands (trace_of r)
     = ["git branch --show-current"; "git push --force-with-lease origin main"]
  /\ failed_commands (trace_of r) = ["git branch --show-current"].
Proof. vm_compute. repeat split. Qed.

(** C3, amended. [handleBranchDivergence] returns [false] and runs no
    command when no strategy is picked, when the force push is picked and
    not confirmed, and for a label it does not know; it returns [true] and
    runs no command for the skip strategy; for the rebase pull and the merge
    pull it runs that one command and returns whether it succeeded; for the
    confirmed force push it first asks git for the current branch, falls
    back to [main] when that query fails, runs the push and returns whether
    the push succeeded. *)
Theorem handleBranchDivergence_outcomes workspaceRoot (W : World) (w : wstate W) choice w1 :
  respond W _ strategyPrompt w = (choice, w1) ->
  let r := run W (handleBranchDivergence workspaceRoot) w in
  let opts := execOptions workspaceRoot in
  (choice = None -> outcome_of r = Returns false /\ commands (trace_of r) = [])
  /\ (forall c, choice = Some c -> label c = "スキップ" ->
      outcome_of r = Returns true /\ commands (trace_of r) = [])
  /\ (forall c answer w2, choice = Some c -> label c = "git pull --rebase" ->
      respond W _ (Exec "git pull --rebase" opts) w1 = (answer, w2) ->
      outcome_of r = Returns (succeeded answer)
      /\ commands (trace_of r) = ["git pull --rebase"])
  /\ (forall c answer w2, choice = Some c -> label c = "git pull" ->
      respond W _ (Exec "git pull" opts) w1 = (answer, w2) ->
      outcome_of r = Returns (succeeded answer)
      /\ commands (trace_of r) = ["git pull"])
  /\ (forall c confirmed w2, choice = Some c ->
      label c = "git push --force-with-lease" ->
      respond W _ forcePushWarning w1 = (confirmed, w2) ->
      (confirmed <> Some "はい" ->
       outcome_of r = Returns false /\ commands (trace_of r) = [])
      /\ (forall query w3 push w4,
          confirmed = Some "はい" ->
          respond W _ (Exec "git branch --show-current" opts) w2 = (query, w3) ->
          respond W _ (Exec ("git push --force-with-lease origin " +:+ branch_after query) opts) w3
            = (push, w4) ->
          outcome_of r = Returns (succeeded push)
          /\ commands (trace_of r)
             = ["git branch --show-current";
                "git push --force-with-lease origin " +:+ branch_after query]))
  /\ (forall c, choice = Some c ->
      label c <> "git pull --rebase" -> label c <> "git pull" ->
      label c <> "git push --force-with-lease" -> label c <> "スキップ" ->
      outcome_of r = Returns false /\ commands (trace_of r) = []).
Proof.
  intros Hchoice r opts. subst r opts.
  unfold handleBranchDivergence.
  match goal with
  | |- context [run W (ask strategyPrompt ≫= ?k) w] =>
    destruct (run_ask_then W strategyPrompt k w w1 choice Hchoice) as [-> ->]
  end.
  cbn [command_of strategyPrompt app].
  split; [|split; [|split; [|split; [|split]]]].
  - intros ->. split; reflexivity.
  - intros c -> Hl. rewrite Hl. split; reflexivity.
  - intros c answer w2 -> Hl Hanswer. rewrite Hl.
    cbv [String.eqb Ascii.eqb Bool.eqb]. unfold pullRebase.
    apply (run_verdict W workspaceRoot _ _ _ _ Hanswer).
  - intros c answer w2 -> Hl Hanswer. rewrite Hl.
    cbv [String.eqb Ascii.eqb Bool.eqb]. unfold pullMerge.
    apply (run_verdict W workspaceRoot _ _ _ _ Hanswer).
  - intros c confirmed w2 -> Hl Hconfirmed. rewrite Hl.
    cbv [String.eqb Ascii.eqb Bool.eqb].
    match goal with
    | |- context [run W (ask forcePushWarning ≫= ?k) w1] =>
      destruct (run_ask_then W forcePushWarning k w1 w2 confirmed Hconfirmed) as [-> ->]
    end.
    cbn [command_of forcePushWarning app]. split.
    + intros Hno. rewrite bool_decide_eq_false_2 by exact Hno. split; reflexivity.
    + intros query w3 push w4 Hyes Hquery Hpush.
      rewrite bool_decide_eq_true_2 by exact Hyes. unfold forcePush.
      match goal with
      | |- context [run W (runCommand workspaceRoot "git branch --show-current" ≫= ?k) w2] =>
        destruct (run_command_then W workspaceRoot "git branch --show-current" k
                    w2 w3 query Hquery) as [-> ->]
      end.
      replace (if success (settled query) then Js.trim (stdout (settled query)) else "main")
        with (branch_after query) by (destruct query as [e|[err|] out errs]; reflexivity).
      destruct (run_verdict W workspaceRoot _ _ _ _ Hpush) as [-> ->].
      split; reflexivity.
  - intros c -> H1 H2 H3 H4.
    apply String.eqb_neq in H1, H2, H3, H4. rewrite H1, H2, H3, H4.
    split; reflexivity.
Qed.

Lemma handleBranchDivergence_outcomes_witness :
  let r := run (scripted (picks "git pull --rebase") None (prints "Already up to date."))
               (handleBranchDivergence (posix ["repo"])) tt in
  outcome_of r = Returns true /\ commands (trace_of r) = ["git pull --rebase"].
Proof.
  refine (proj1 (proj2 (proj2
            (handleBranchDivergence_outcomes (posix ["repo"])
               (scripted (picks "git pull --rebase") None (prints "Already up to date."))
               tt _ tt eq_refl)))
            _ (ExecCallback None "Already up to date." "") tt eq_refl eq_refl eq_refl).
Defined.

Lemma node_exec_reports workspaceRoot (c : Child) :
  goes_wrong c -> succeeded (node_exec (execOptions workspaceRoot) c) = false.
Proof.
  unfold goes_wrong, node_exec. cbn [execOptions timeout maxBuffer].
  intros Hwrong.
  destruct (spawn_failure c) as [errno|]; [reflexivity|].
  destruct Hwrong as [[x [=]] | Hwrong].
  destruct ((0 <? 5 * 60 * 1000) && (5 * 60 * 1000 <? run_ms c))%N eqn:Hlate;
    [reflexivity|].
  destruct Hwrong as [Hlong | Hwrong].
  { apply N.ltb_lt in Hlong. rewrite Hlong in Hlate. discriminate Hlate. }
  destruct ((10 * 1024 * 1024 <? bytes (writes_stdout c))
            || (10 * 1024 * 1024 <? bytes (writes_stderr c)))%N eqn:Hbig;
    [reflexivity|].
  apply orb_false_iff in Hbig. destruct Hbig as [Hout Herr].
  destruct Hwrong as [Hbig | [Hbig | Hexit]].
  - apply N.ltb_lt in Hbig. congruence.
  - apply N.ltb_lt in Hbig. congruence.
  - destruct (exit_status c =? 0)%Z eqn:Hzero; [|reflexivity].
    apply Z.eqb_eq in Hzero. contradiction.
Qed.

(** C8. [runCommand] hands [exec] a timeout of five minutes and a buffer of
    ten mebibytes. Whatever [exec] does, throw or call back, with or
    without an error, the promise of [runCommand] is resolved with a result
    and never rejected, after that one call; [success] is [false] when
    [exec] threw or reported an error, and when [exec] answers as Node
    does, that covers a child that outlives the timeout, overflows the
    buffer, cannot be spawned or exits with a failure. *)
Theorem runCommand_always_resolves workspaceRoot command :
  (timeout (execOptions workspaceRoot) = 5 * 60 * 1000
   /\ maxBuffer (execOptions workspaceRoot) = 10 * 1024 * 1024)%N
  /\ (forall (W : World) (w : wstate W),
        exists result,
          outcome_of (run W (runCommand workspaceRoot command) w) = Returns result
          /\ commands (trace_of (run W (runCommand workspaceRoot command) w)) = [command])
  /\ (forall (W : World) (w w1 : wstate W) answer result,
        respond W _ (Exec command (execOptions workspaceRoot)) w = (answer, w1) ->
        outcome_of (run W (runCommand workspaceRoot command) w) = Returns result ->
        success result = succeeded answer
        /\ (succeeded answer = true -> stdout result = stdout (settled answer)))
  /\ (forall (W : World) (w w1 : wstate W) child,
        respond W _ (Exec command (execOptions workspaceRoot)) w
          = (node_exec (execOptions workspaceRoot) child, w1) ->
        goes_wrong child ->
        exists result,
          outcome_of (run W (runCommand workspaceRoot command) w) = Returns result
          /\ success result = false).
Proof.
  split; [split; reflexivity|]. split; [|split].
  - intros W w. rewrite run_runCommand.
    destruct (respond W _ (Exec command (execOptions workspaceRoot)) w) as [answer w1].
    eexists. split; reflexivity.
  - intros W w w1 answer result Hanswer. rewrite run_runCommand, Hanswer.
    intros [= <-]. rewrite success_settled. auto.
  - intros W w w1 child Hanswer Hwrong. rewrite run_runCommand, Hanswer.
    eexists. split; [reflexivity|]. cbn [outcome_of fst].
    rewrite success_settled. apply node_exec_reports, Hwrong.
Qed.

Lemma runCommand_always_resolves_witness :
  exists result,
    outcome_of
      (run (scripted None None (node_shell (fun _ => hanging_child)))
           (runCommand (posix ["repo"]) "git pull") tt)
    = Returns result
    /\ success result = false.
Proof.
  refine (proj2 (proj2 (proj2 (runCommand_always_resolves (posix ["repo"]) "git pull")))
            (scripted None None (node_shell (fun _ => hanging_child))) tt tt
            hanging_child eq_refl _).
  right. left. vm_compute. reflexivity.
Defined.

(** ** The standalone scripts *)





(** ** Worked examples *)

Example classify_plain_project :
  exists a,
    analyzeCurrentDirectory sample_disk linuxHost (posix ["proj"]) = Returns a
    /\ hasSourceFiles_ a = true /\ folderType a = "source_project"
    /\ gitInitRecommended a = true /\ warningMessage a = None.
Proof. eexists. split; [vm_compute; reflexivity|]. repeat split. Qed.

Example classify_unlistable_directory :
  exists a,
    analyzeCurrentDirectory sample_disk linuxHost (posix ["locked"]) = Returns a
    /\ isEmpty a = false /\ hasSourceFiles_ a = false
    /\ folderType a = "general_folder".
Proof. eexists. split; [vm_compute; reflexivity|]. repeat split. Qed.

Example classify_system_folder :
  exists a,
    analyzeCurrentDirectory sample_disk linuxHost (posix ["etc"; "nginx"]) = Returns a
    /\ isSystemFolder_ a = true /\ folderType a = "system_folder"
    /\ gitInitRecommended a = false.
Proof. eexists. split; [vm_compute; reflexivity|]. repeat split. Qed.

Example runCommand_quiet_child :
  outcome_of
    (run (scripted None None (node_shell (fun _ => quiet_child)))
         (runCommand (posix ["repo"]) "git add .") tt)
  = Returns {| success := true; stdout := "ok"; stderr := ""; error := None |}.
Proof. reflexivity. Qed.

Example runCommand_missing_shell :
  exists result,
    outcome_of
      (run (scripted None None (node_shell (fun _ => missing_shell)))
           (runCommand (posix ["repo"]) "git add .") tt)
    = Returns result
    /\ success result = false.
Proof. eexists. split; reflexivity. Qed.

Example runCommand_exec_throws :
  outcome_of
    (run (scripted None None (fun _ _ => ExecThrows (Error "spawn EINVAL")))
         (runCommand (posix ["repo"]) "git add .") tt)
  = Returns {| success := false; stdout := ""; stderr := "spawn EINVAL";
               error := Some (inr (Error "spawn EINVAL")) |}.
Proof. reflexivity. Qed.

Example skip_runs_nothing :
  run (scripted (picks "スキップ") None old_git)
      (handleBranchDivergence (posix ["repo"])) tt
  = (Returns true, tt, [Io (strategyPrompt) (picks "スキップ")]).
Proof. reflexivity. Qed.

Example detect_wsl :
  type (detectPlatform
          (disk "/" (Directory true
             [("proc", Directory true
                 [("version", RegularFile "Linux version 5.15 (Microsoft@Microsoft.com)")])]))
          "linux" "5.15")
  = "wsl".
Proof. vm_compute. reflexivity. Qed.

(** * Further properties of the code *)

(** ** Strings *)

Lemma includes_unfold s needle :
  Js.includes s needle
  = Js.startsWith s needle
    || match s with
       | EmptyString => false
       | String _ s' => Js.includes s' needle
       end.
Proof. destruct s; reflexivity. Qed.

Lemma append_cons c (s t : string) : String c s +:+ t = String c (s +:+ t).
Proof. reflexivity. Qed.

Lemma append_nil (t : string) : "" +:+ t = t.
Proof. reflexivity. Qed.

Lemma startsWith_app s t needle :
  Js.startsWith s needle = true -> Js.startsWith (s +:+ t) needle = true.
Proof.
  revert s. induction needle as [|a needle IH]; intros s H.
  - destruct (s +:+ t); reflexivity.
  - destruct s as [|b s]; [discriminate H|]. rewrite append_cons.
    cbn in H |- *.
    destruct (Ascii.eqb a b); [auto | discriminate H].
Qed.

Lemma includes_app_l s t needle :
  Js.includes s needle = true -> Js.includes (s +:+ t) needle = true.
Proof.
  induction s as [|c s IH]; rewrite includes_unfold; intros H.
  - rewrite orb_false_r in H. rewrite includes_unfold.
    apply orb_true_iff. left. apply (startsWith_app "" t), H.
  - apply orb_true_iff in H. rewrite includes_unfold. apply orb_true_iff.
    destruct H as [H|H]; [left; apply (startsWith_app (String c s) t), H |].
    right. rewrite append_cons. auto.
Qed.

Lemma includes_app_r s t needle :
  Js.includes t needle = true -> Js.includes (s +:+ t) needle = true.
Proof.
  intros H. induction s as [|c s IH]; [exact H|].
  rewrite includes_unfold. apply orb_true_iff. right. rewrite append_cons. exact IH.
Qed.

Lemma startsWith_includes s needle :
  Js.startsWith s needle = true -> Js.includes s needle = true.
Proof. intros H. rewrite includes_unfold, H. reflexivity. Qed.

Lemma toLowerCase_app s t :
  Js.toLowerCase (s +:+ t) = Js.toLowerCase s +:+ Js.toLowerCase t.
Proof.
  induction s as [|c s IH]; [reflexivity|].
  rewrite append_cons.
  change (String (Js.lower_byte c) (Js.toLowerCase (s +:+ t))
          = String (Js.lower_byte c) (Js.toLowerCase s +:+ Js.toLowerCase t)).
  rewrite IH. reflexivity.
Qed.

Lemma append_assoc (a b c : string) : (a +:+ b) +:+ c = a +:+ (b +:+ c).
Proof.
  induction a as [|x a IH]; [reflexivity|].
  rewrite !append_cons, IH. reflexivity.
Qed.

(** ** Platform detection *)

(** X1. [detectPlatform] keeps the host's platform name, raises at most one
    of the three family flags and exactly for [win32], [darwin] and
    [linux]; the WSL flag is only raised on Linux, together with the type
    [wsl], and exactly when /proc/version can be read and mentions
    [microsoft] or [wsl] in any ASCII case; an unreadable /proc/version
    leaves a plain Linux host; every other platform stays [unknown]. *)
Theorem detectPlatform_flags fs currentPlatform currentRelease :
  let p := detectPlatform fs currentPlatform currentRelease in
  system p = currentPlatform
  /\ (isWindows p = true <-> currentPlatform = "win32")
  /\ (isMacOS p = true <-> currentPlatform = "darwin")
  /\ (isLinux p = true <-> currentPlatform = "linux")
  /\ (isWSL p = true -> isLinux p = true /\ type p = "wsl" /\ shell p = "bash")
  /\ (isWSL p = true <->
      currentPlatform = "linux"
      /\ exists text,
           readFileSync fs proc_version = Done text
           /\ (Js.includes (Js.toLowerCase text) "microsoft"
               || Js.includes (Js.toLowerCase text) "wsl") = true)
  /\ (forall e, readFileSync fs proc_version = Failed e ->
      currentPlatform = "linux" -> type p = "linux" /\ isWSL p = false)
  /\ (type p = "unknown" <->
      currentPlatform <> "win32" /\ currentPlatform <> "darwin"
      /\ currentPlatform <> "linux").
Proof.
  intros p. subst p. unfold detectPlatform.
  destruct (String.eqb currentPlatform "win32") eqn:Ew;
    [apply String.eqb_eq in Ew | apply String.eqb_neq in Ew].
  { cbn. subst currentPlatform. repeat split; intros;
      repeat match goal with
             | H : _ /\ _ |- _ => destruct H
             | H : exists _, _ |- _ => destruct H
             end; congruence. }
  destruct (String.eqb currentPlatform "darwin") eqn:Ed;
    [apply String.eqb_eq in Ed | apply String.eqb_neq in Ed].
  { cbn. subst currentPlatform. repeat split; intros;
      repeat match goal with
             | H : _ /\ _ |- _ => destruct H
             | H : exists _, _ |- _ => destruct H
             end; congruence. }
  destruct (String.eqb currentPlatform "linux") eqn:El;
    [apply String.eqb_eq in El | apply String.eqb_neq in El].
  2:{ cbn. repeat split; intros;
      repeat match goal with
             | H : _ /\ _ |- _ => destruct H
             | H : exists _, _ |- _ => destruct H
             end; congruence. }
  subst currentPlatform.
  destruct (readFileSync fs proc_version) as [text|e] eqn:Hread.
  - destruct (Js.includes (Js.toLowerCase text) "microsoft"
              || Js.includes (Js.toLowerCase text) "wsl") eqn:Hmark; cbn;
      repeat split; intros;
      repeat match goal with
             | H : _ /\ _ |- _ => destruct H
             | H : exists _, _ |- _ => destruct H
             end;
      try (eexists; split; [reflexivity | exact Hmark]);
      congruence.
  - cbn. repeat split; intros;
      repeat match goal with
             | H : _ /\ _ |- _ => destruct H
             | H : exists _, _ |- _ => destruct H
             end; congruence.
Qed.

Lemma detectPlatform_flags_witness :
  let p := detectPlatform sample_disk "linux" "6.1" in
  type p = "linux" /\ isWSL p = false.
Proof.
  refine (proj1 (proj2 (proj2 (proj2 (proj2 (proj2 (proj2
            (detectPlatform_flags sample_disk "linux" "6.1")))))))
            (Error "ENOENT: no such file or directory") _ _);
    reflexivity.
Defined.

(** ** System folders *)

Lemma concat_with_snoc sep0 (l : list string) name :
  exists suffix,
    Path.concat_with sep0 (l ++ [name]) = Path.concat_with sep0 l +:+ suffix.
Proof.
  induction l as [|x l IH].
  - exists name. reflexivity.
  - destruct IH as [suffix IH]. destruct l as [|y l].
    + exists (sep0 +:+ name). cbn. reflexivity.
    + exists suffix.
      change (x +:+ sep0 +:+ Path.concat_with sep0 ((y :: l) ++ [name])
              = (x +:+ sep0 +:+ Path.concat_with sep0 (y :: l)) +:+ suffix).
      rewrite IH, !append_assoc. reflexivity.
Qed.

Lemma to_string_join sep0 p name :
  exists suffix,
    Path.to_string sep0 (Path.join p name) = Path.to_string sep0 p +:+ suffix.
Proof.
  unfold Path.to_string, Path.join. cbn [proot psegs].
  destruct (concat_with_snoc sep0 (psegs p) name) as [suffix ->].
  exists suffix. rewrite append_assoc. reflexivity.
Qed.

(** X2. A directory directly inside a system folder is a system folder:
    the test looks for the fragments anywhere in the path string, and the
    string of a child extends that of its parent. *)
Theorem isSystemFolder_inherited platformInfo dir name :
  isSystemFolder platformInfo dir = true ->
  isSystemFolder platformInfo (Path.join dir name) = true.
Proof.
  unfold isSystemFolder, Js.some.
  destruct (to_string_join (sep platformInfo) dir name) as [suffix ->].
  rewrite toLowerCase_app. intros H.
  apply existsb_exists in H. destruct H as (sysPath & Hin & Hhit).
  apply existsb_exists. exists sysPath. split; [exact Hin|].
  apply includes_app_l, Hhit.
Qed.

Lemma isSystemFolder_inherited_witness :
  isSystemFolder linuxHost (Path.join (posix ["etc"]) "nginx") = true.
Proof.
  apply (isSystemFolder_inherited linuxHost (posix ["etc"]) "nginx").
  vm_compute; reflexivity.
Defined.

Lemma concat_with_middle sep0 (before : list string) seg (after : list string) :
  exists left right,
    sep0 +:+ Path.concat_with sep0 (before ++ seg :: after)
    = left +:+ (sep0 +:+ seg) +:+ right.
Proof.
  induction before as [|x before IH].
  - exists "". destruct after as [|y after].
    + exists "". cbn [app Path.concat_with]. rewrite append_nil.
      induction (sep0 +:+ seg) as [|c s IHs]; [reflexivity|].
      rewrite append_cons, <- IHs. reflexivity.
    + exists (sep0 +:+ Path.concat_with sep0 (y :: after)).
      change (sep0 +:+ seg +:+ sep0 +:+ Path.concat_with sep0 (y :: after)
              = "" +:+ (sep0 +:+ seg) +:+ sep0 +:+ Path.concat_with sep0 (y :: after)).
      rewrite append_nil, append_assoc. reflexivity.
  - destruct IH as (left & right & IH).
    exists (sep0 +:+ x +:+ left), right.
    assert (Path.concat_with sep0 ((x :: before) ++ seg :: after)
            = x +:+ sep0 +:+ Path.concat_with sep0 (before ++ seg :: after)) as ->.
    { cbn [app]. destruct (before ++ seg :: after) as [|z rest] eqn:E;
        [destruct before; discriminate E | reflexivity]. }
    rewrite IH, !append_assoc. reflexivity.
Qed.

(** X3. Off Windows, a path under the root [/] is a system folder as soon
    as one of its segments, in lower case and with a slash before it, begins
    with one of the Unix fragments: a folder named [Development], [etcetera]
    or [variables] anywhere on the path is enough. *)
Theorem isSystemFolder_by_segment_prefix platformInfo before seg after sysPath :
  isWindows platformInfo = false ->
  sysPath ∈ unixSystemPaths ->
  Js.startsWith ("/" +:+ Js.toLowerCase seg) sysPath = true ->
  isSystemFolder platformInfo (posix (before ++ seg :: after)) = true.
Proof.
  intros Hhost Hin Hprefix. unfold isSystemFolder, Js.some, sep. rewrite Hhost.
  apply existsb_exists. exists sysPath. split; [apply list_elem_of_In, Hin|].
  unfold Path.to_string, posix. cbn [proot psegs].
  destruct (concat_with_middle "/" before seg after) as (left & right & ->).
  rewrite !toLowerCase_app.
  apply includes_app_r, includes_app_l, startsWith_includes.
  exact Hprefix.
Qed.

Lemma isSystemFolder_by_segment_prefix_witness :
  isSystemFolder linuxHost (posix (["home"; "me"] ++ "Development" :: ["app"])) = true.
Proof.
  apply (isSystemFolder_by_segment_prefix linuxHost ["home"; "me"] "Development" ["app"] "/dev");
    [reflexivity | | vm_compute; reflexivity].
  unfold unixSystemPaths. rewrite !elem_of_cons. auto 12.
Defined.

(** ** Source files *)

Section SourceFiles.

Variable fs : FileSystem.
Variable workspaceRoot : path.





End SourceFiles.



(** ** Invariants of the analysis *)

Lemma isDirectoryEmpty_no_sources fs workspaceRoot :
  isDirectoryEmpty fs workspaceRoot = Returns true ->
  hasSourceFiles fs workspaceRoot = Returns false.
Proof.
  unfold isDirectoryEmpty, hasSourceFiles.
  destruct (readdirSync fs workspaceRoot) as [[|file rest]|e]; plumb;
    [reflexivity | discriminate | discriminate].
Qed.

(** X6. In every analysis, a directory that is a repository is not
    reported as nested, a directory reported as nested is not a repository
    itself, and a directory reported as empty has no source files. *)
Theorem analysis_flags_consistent fs platformInfo workspaceRoot a :
  analyzeCurrentDirectory fs platformInfo workspaceRoot = Returns a ->
  (isGitRepo a = true -> isNestedRepo a = false)
  /\ (isNestedRepo a = true -> isGitRepo a = false)
  /\ (isEmpty a = true -> hasSourceFiles_ a = false)
  /\ (hasSourceFiles_ a = true -> isEmpty a = false).
Proof.
  run_analysis (probes_return fs workspaceRoot).
  pose proof (isDirectoryEmpty_no_sources fs workspaceRoot) as Hes.
  pose proof (isNestedInGitRepo_skipped fs workspaceRoot) as Hskip.
  destruct (existsSync fs (gitPath workspaceRoot)) eqn:Hgit,
           (isSystemFolder platformInfo workspaceRoot), nested, empty, sources;
    intros [= <-]; cbn;
    try (specialize (Hskip eq_refl));
    try (specialize (Hes Hempty));
    repeat split; intros; congruence.
Qed.

Lemma analysis_flags_consistent_witness :
  exists a,
    analyzeCurrentDirectory sample_disk linuxHost (posix ["repo"]) = Returns a
    /\ isNestedRepo a = false.
Proof.
  eexists. split; [vm_compute; reflexivity|].
  refine (proj1 (analysis_flags_consistent sample_disk linuxHost (posix ["repo"]) _ _) _);
    vm_compute; reflexivity.
Defined.

Lemma isNestedInGitRepo_below_root_witness :
  isNestedInGitRepo sample_disk (posix ["repo"; "docs"; "empty"]) = Returns true <->
  exists dir,
    dir ∈ ancestors (posix ["repo"; "docs"; "empty"])
    /\ psegs dir <> [] /\ has_git_metadata sample_disk dir = true.
Proof.
  apply (isNestedInGitRepo_below_root sample_disk (posix ["repo"; "docs"; "empty"])).
  vm_compute; reflexivity.
Defined.

(** ** The workspace folder *)

Lemma firstGitFolder_find fs folders :
  (forall f, f ∈ folders -> existsSync fs (Path.join f ".git") = true ->
     exists st, statSync fs (Path.join f ".git") = Done st) ->
  firstGitFolder fs folders = Returns (find (has_git_directory fs) folders).
Proof.
  induction folders as [|f rest IH]; intros Hstat; [reflexivity|].
  cbn [firstGitFolder find]. unfold has_git_directory at 1.
  destruct (existsSync fs (Path.join f ".git")) eqn:Hex.
  - destruct (Hstat f) as [st Hst]; [apply elem_of_cons; auto | exact Hex |].
    rewrite Hst. plumb. cbn [andb].
    destruct (isDirectory st); [reflexivity|].
    apply IH. intros x Hx. apply Hstat, elem_of_cons. auto.
  - cbn [andb]. apply IH. intros x Hx. apply Hstat, elem_of_cons. auto.
Qed.

(** X8. [getWorkspaceRoot] answers with no folder only when none is open;
    whenever it answers with a folder, the folder is one of the open ones;
    and with two or more folders whose [.git] entries can be examined, it
    is the first folder, in workspace order, whose [.git] is a directory, or
    the first folder when there is none. *)
Theorem getWorkspaceRoot_choice fs :
  (forall workspaceFolders,
     getWorkspaceRoot fs workspaceFolders = Returns None ->
     workspaceFolders = None \/ workspaceFolders = Some [])
  /\ (forall folders chosen,
     getWorkspaceRoot fs (Some folders) = Returns (Some chosen) ->
     chosen ∈ folders)
  /\ (forall first second more,
     (forall f, f ∈ first :: second :: more ->
        existsSync fs (Path.join f ".git") = true ->
        exists st, statSync fs (Path.join f ".git") = Done st) ->
     getWorkspaceRoot fs (Some (first :: second :: more))
     = Returns (Some (default first
                        (find (has_git_directory fs) (first :: second :: more))))).
Proof.
  assert (forall folders chosen,
            firstGitFolder fs folders = Returns (Some chosen) -> chosen ∈ folders)
    as Hmember.
  { induction folders as [|f rest IH]; intros chosen; [discriminate|].
    cbn [firstGitFolder].
    destruct (existsSync fs (Path.join f ".git")).
    - destruct (statSync fs (Path.join f ".git")) as [st|e]; plumb; [|discriminate].
      destruct (isDirectory st).
      + intros [= <-]. apply elem_of_cons. auto.
      + intros H. apply elem_of_cons. right. auto.
    - intros H. apply elem_of_cons. right. auto. }
  split; [|split].
  - intros [[|first [|second more]]|]; auto; unfold getWorkspaceRoot.
    + discriminate.
    + destruct (firstGitFolder fs (first :: second :: more)) as [[f|]| |];
        plumb; discriminate.
  - intros [|first [|second more]] chosen; unfold getWorkspaceRoot.
    + discriminate.
    + intros [= <-]. apply elem_of_cons. auto.
    + destruct (firstGitFolder fs (first :: second :: more)) as [[f|]| |] eqn:E;
        plumb; try discriminate.
      * intros [= <-]. apply Hmember, E.
      * intros [= <-]. apply elem_of_cons. auto.
  - intros first second more Hstat. unfold getWorkspaceRoot.
    rewrite (firstGitFolder_find fs _ Hstat). plumb.
    destruct (find (has_git_directory fs) (first :: second :: more)); reflexivity.
Qed.

Lemma getWorkspaceRoot_choice_witness :
  getWorkspaceRoot sample_disk (Some [posix ["worktree"]; posix ["proj"]; posix ["repo"]])
  = Returns (Some (posix ["repo"])).
Proof.
  refine (proj2 (proj2 (getWorkspaceRoot_choice sample_disk))
            (posix ["worktree"]) (posix ["proj"]) [posix ["repo"]] _).
  intros f Hf Hex. rewrite !elem_of_cons in Hf.
  destruct Hf as [-> | [-> | [-> | Hf]]];
    [eexists; vm_compute; reflexivity | discriminate Hex
    | eexists; vm_compute; reflexivity | apply elem_of_nil in Hf; destruct Hf].
Defined.

(** ** Runs of the extension *)

Lemma every_run_sound {A} (t : Task A) (P : list uio -> outcome A -> Prop) :
  every_run t P ->
  forall (H : Host) (h : hstate H),
    P (events_of (perform H t h)) (result_of (perform H t h)).
Proof.
  revert P. induction t as [a|e| |X ev k IH]; intros P Hall H h; try exact Hall.
  cbn [perform]. destruct (answer H X ev h) as [x h1].
  specialize (IH x _ (Hall x) H h1).
  destruct (perform H (k x) h1) as [[r h2] tr]. exact IH.
Qed.

Lemma every_run_weaken {A} (t : Task A) (P Q : list uio -> outcome A -> Prop) :
  (forall tr r, P tr r -> Q tr r) -> every_run t P -> every_run t Q.
Proof.
  revert P Q. induction t as [a|e| |X ev k IH]; intros P Q HPQ Hall; cbn in *; auto;
    intros x; (eapply IH; [|apply Hall]); cbn; auto.
Qed.

Lemma every_run_bind {A B} (m : Task A) (k : A -> Task B)
      (P : list uio -> outcome B -> Prop) :
  every_run m (fun tr r =>
    match r with
    | Returns a => every_run (k a) (fun tr' r' => P (tr ++ tr') r')
    | Throws e => P tr (Throws e)
    | OutOfFuel => P tr OutOfFuel
    end) ->
  every_run (m ≫= k) P.
Proof.
  revert P. induction m as [a|e| |X ev h IH]; intros P Hall; cbn in *; auto;
    intros x; apply IH; (eapply every_run_weaken; [|apply Hall]); cbn;
    intros tr [a|e|]; auto.
Qed.

Lemma every_run_settle {A B} (m : Task A) (ok : A -> Task B) (bad : JsError -> Task B)
      (P : list uio -> outcome B -> Prop) :
  every_run m (fun tr r =>
    match r with
    | Returns a => every_run (ok a) (fun tr' r' => P (tr ++ tr') r')
    | Throws e => every_run (bad e) (fun tr' r' => P (tr ++ tr') r')
    | OutOfFuel => P tr OutOfFuel
    end) ->
  every_run (settle m ok bad) P.
Proof.
  revert P. induction m as [a|e| |X ev h IH]; intros P Hall; cbn in *; auto;
    intros x; apply IH; (eapply every_run_weaken; [|apply Hall]); cbn;
    intros tr [a|e|]; auto.
Qed.

Lemma every_run_as_settle {A} (t : Task A) (P : list uio -> outcome A -> Prop) :
  every_run (settle t Resolve Reject) P -> every_run t P.
Proof.
  revert P. induction t as [a|e| |X ev k IH]; intros P Hall; cbn in *; auto.
Qed.

Lemma every_run_settle_bind {A B C} (m : Task A) (k : A -> Task B)
      (ok : B -> Task C) (bad : JsError -> Task C) P :
  every_run (settle m (fun a => settle (k a) ok bad) bad) P ->
  every_run (settle (tbind m k) ok bad) P.
Proof.
  revert P. induction m as [a|e| |X ev h IH]; intros P Hall; cbn in *; auto.
Qed.

Lemma every_run_settle_settle {A B C} (m : Task A)
      (ok1 : A -> Task B) (bad1 : JsError -> Task B)
      (ok : B -> Task C) (bad : JsError -> Task C) P :
  every_run (settle m (fun a => settle (ok1 a) ok bad)
                      (fun e => settle (bad1 e) ok bad)) P ->
  every_run (settle (settle m ok1 bad1) ok bad) P.
Proof.
  revert P. induction m as [a|e| |X ev h IH]; intros P Hall; cbn in *; auto.
Qed.

Lemma every_run_settle_lift_bind {A B C} (m : Prog A) (k : A -> Prog B)
      (ok : B -> Task C) (bad : JsError -> Task C) P :
  every_run (settle (lift m) (fun a => settle (lift (k a)) ok bad) bad) P ->
  every_run (settle (lift (pbind m k)) ok bad) P.
Proof.
  revert P. induction m as [a|e|X ev h IH]; intros P Hall; cbn in *; auto.
Qed.

Lemma every_run_settle_command {C} workspaceRoot command
      (ok : CommandResult -> Task C) (bad : JsError -> Task C) P :
  (forall a, every_run (ok (settled a))
               (fun tr r =>
                  P (Uio (Core (Exec command (execOptions workspaceRoot))) a :: tr) r)) ->
  every_run (settle (lift (runCommand workspaceRoot command)) ok bad) P.
Proof.
  intros Hall. cbn. intros [e|err out errs].
  - exact (Hall (ExecThrows e)).
  - destruct err as [e|]; exact (Hall (ExecCallback _ out errs)).
Qed.

(** Walks every path of a task: unfolds the plumbing, takes each answer of
    the host apart and splits on each test that an answer decides. *)
Ltac unfold_task :=
  unfold mbind, mret, Task_bind, Task_ret, Prog_bind, Prog_ret, attempting, failed, await;
  cbn [every_run tbind settle lift pbind mbind mret Task_bind Task_ret
       Prog_bind Prog_ret await ask attempting failed of_outcome
       settled success stdout negb andb orb isGitRepo warningMessage
       JsText.same JsText.falsy message].

Ltac take_answer :=
  let e := fresh "e" in
  let out := fresh "out" in
  let errs := fresh "errs" in
  intros [e|[e|] out errs].

Ltac walk_step :=
  unfold_task;
  match goal with
  | |- every_run (settle (lift (runCommand _ _)) _ _) _ =>
    apply every_run_settle_command; take_answer
  | |- every_run (settle (coreCommand _ _) _ _) _ =>
    apply every_run_settle_command; take_answer
  | |- every_run (settle (lift (pbind _ _)) _ _) _ =>
    apply every_run_settle_lift_bind
  | |- every_run (settle (tbind _ _) _ _) _ => apply every_run_settle_bind
  | |- every_run (settle (settle _ _ _) _ _) _ => apply every_run_settle_settle
  | |- every_run (settle (if ?b then _ else _) _ _) _ => destruct b eqn:?
  | |- every_run (settle (match ?x with _ => _ end) _ _) _ => destruct x eqn:?
  | |- every_run (settle (lift (if ?b then _ else _)) _ _) _ => destruct b eqn:?
  | |- every_run (settle (lift (match ?x with _ => _ end)) _ _) _ => destruct x eqn:?
  | |- every_run (if ?b then _ else _) _ => destruct b eqn:?
  | |- every_run (match ?x with _ => _ end) _ => destruct x eqn:?
  | |- forall x : option string, _ => intros [?|]
  | |- forall x : option QuickPickItem, _ => intros [[? ?]|]
  | |- forall x : ExecAnswer, _ => take_answer
  | |- forall x : bool, _ => intros [|]
  | |- forall x : unit, _ => intros []
  | |- forall x : string, _ => intros ?
  | |- forall x : attempt bool, _ => intros [?|?]
  end.

(** The property is set aside while the task is walked. *)
Ltac walk :=
  apply every_run_as_settle;
  match goal with
  | |- every_run _ ?P =>
    let Post := fresh "Post" in
    set (Post := P); repeat walk_step; unfold_task; subst Post; cbv beta
  end.

(** ** Traces in pieces *)

Lemma execs_app tr tr' : execs (tr ++ tr') = execs tr ++ execs tr'.
Proof. apply flat_map_app. Qed.

Lemma ran_any_app tr tr' prefix :
  ran_any (tr ++ tr') prefix = ran_any tr prefix || ran_any tr' prefix.
Proof. unfold ran_any, ran. rewrite execs_app, map_app. apply existsb_app. Qed.

Lemma succeeded_any_app tr tr' prefix :
  succeeded_any (tr ++ tr') prefix
  = succeeded_any tr prefix || succeeded_any tr' prefix.
Proof. unfold succeeded_any. rewrite execs_app. apply existsb_app. Qed.

Lemma chose_app tr tr' question item :
  chose (tr ++ tr') question item = chose tr question item || chose tr' question item.
Proof. unfold chose, dialogs. rewrite flat_map_app. apply existsb_app. Qed.

Lemma summaries_app tr tr' : summaries (tr ++ tr') = summaries tr ++ summaries tr'.
Proof. apply flat_map_app. Qed.

Lemma errors_app tr tr' : errors (tr ++ tr') = errors tr ++ errors tr'.
Proof. apply flat_map_app. Qed.

Lemma first_answer_app tr tr' :
  first_answer (tr ++ tr')
  = match first_answer tr with Some b => Some b | None => first_answer tr' end.
Proof.
  unfold first_answer, dialogs. rewrite flat_map_app.
  destruct (flat_map dialog_of tr) as [|[q a] rest]; reflexivity.
Qed.

Lemma digest_app tr tr' : digest (tr ++ tr') = merge (digest tr) (digest tr').
Proof.
  unfold digest, merge. cbn [confirmed commanded init_ran add_ran commit_ran push_ran
    init_ok add_ok commit_ok push_ok init_agreed stage_agreed push_agreed
    idle_push_agreed summarised reported].
  rewrite first_answer_app, !ran_any_app, !succeeded_any_app, !chose_app,
    summaries_app, errors_app.
  f_equal.
  - destruct (ran_any tr "git push origin"), (ran_any tr "git push -u"),
      (ran_any tr' "git push origin"); reflexivity.
  - destruct (succeeded_any tr "git push origin"), (succeeded_any tr "git push -u"),
      (succeeded_any tr' "git push origin"); reflexivity.
Qed.

(** ** The steps of the extension, one by one *)

Ltac leaf :=
  cbn [printed succeeded settled success stdout error negb andb orb];
  repeat match goal with H : _ = _ |- _ => rewrite H end.

Ltac answered :=
  repeat match goal with
         | H : negb _ = true |- _ => apply negb_true_iff in H
         | H : negb _ = false |- _ => apply negb_false_iff in H
         | H : String.eqb ?s _ = true |- _ => apply String.eqb_eq in H; subst s
         | H : ?b = true |- _ => is_var b; subst b
         | H : ?b = false |- _ => is_var b; subst b
         end.

Ltac digested := vm_compute; reflexivity.

Section MethodFacts.

Variable platformInfo : PlatformInfo.
Variable workspaceRoot : path.

Lemma checkBranchDivergence_runs :
  every_run (lift (checkBranchDivergence workspaceRoot)) (fun tr r =>
    (exists b, r = Returns b) /\ digest tr = aside None true).
Proof.
  unfold checkBranchDivergence. walk.
  all: split; [eexists; reflexivity|digested].
Qed.

Lemma handleBranchDivergence_runs :
  every_run (lift (handleBranchDivergence workspaceRoot)) (fun tr r =>
    (exists b, r = Returns b) /\ exists first ran, digest tr = aside first ran).
Proof.
  unfold handleBranchDivergence, pullRebase, pullMerge, forcePush, strategyPrompt,
    forcePushWarning.
  walk.
  all: split; [eexists; reflexivity|]; eexists; eexists; digested.
Qed.

Lemma ensureGitIdentity_runs :
  every_run (ensureGitIdentity workspaceRoot) (fun tr r =>
    r = Returns tt
    /\ (exists a, answer_to "git config user.name" (execs tr) = Some a
                  /\ ran_any tr set_name_command = negb (printed a))
    /\ (exists a, answer_to "git config user.email" (execs tr) = Some a
                  /\ ran_any tr set_email_command = negb (printed a))
    /\ digest tr = aside None true).
Proof.
  unfold ensureGitIdentity. walk.
  all: split; [reflexivity|]; split; [|split]; [| |digested];
    eexists; (split; [reflexivity|]); leaf; reflexivity.
Qed.

Lemma commit_runs text :
  every_run (commit workspaceRoot text) (fun tr r =>
    exists a,
      last (execs tr) = Some ("git commit -m " +:+ DQ +:+ text +:+ DQ, a)
      /\ r = (if succeeded a then Returns tt else Throws (Error "コミットに失敗しました"))
      /\ digest tr = committed (succeeded a)).
Proof.
  unfold commit. apply every_run_bind.
  eapply every_run_weaken; [|apply ensureGitIdentity_runs].
  intros tr0 r (-> & _ & _ & Hdigest).
  walk.
  all: eexists; rewrite execs_app, digest_app, Hdigest.
  all: split; [apply last_snoc|]; split; [reflexivity|digested].
Qed.

Lemma createGitHubRepository_runs :
  every_run (createGitHubRepository platformInfo workspaceRoot) (fun tr r =>
    succeeded_any tr "gh repo create" = returned r
    /\ r <> OutOfFuel
    /\ (ran_any tr "gh repo create" = true ->
        succeeded_any tr "gh --version" = true
        /\ succeeded_any tr "gh auth status" = true
        /\ exists v,
             reply_to "リポジトリの可視性を選択してください" (dialogs tr) = Some (Some v)
             /\ v <> ""
             /\ last (ran tr)
                = Some ("gh repo create " +:+ repoName platformInfo workspaceRoot "new-repo"
                        +:+ " " +:+ (if String.eqb v "public" then "--public" else "--private")
                        +:+ " --source=. --remote=origin --push"))).
Proof.
  unfold createGitHubRepository. walk.
  all: split; [reflexivity|]; split; [discriminate|].
  all: try (intros Hran; discriminate Hran).
  all: intros _; split; [reflexivity|]; split; [reflexivity|].
  all: eexists; split; [reflexivity|]; split; [discriminate|].
  all: leaf; reflexivity.
Qed.

Lemma push_runs :
  every_run (push platformInfo workspaceRoot) (fun tr r =>
    r <> OutOfFuel
    /\ succeeded_any tr "git push " = returned r
    /\ (returned r = true ->
        exists c a, last (execs tr) = Some (c, a)
                    /\ Js.startsWith c "git push " = true /\ succeeded a = true)
    /\ (ran_any tr "gh " = true ->
        chose tr "プッシュに失敗しました。GitHubリポジトリを作成しますか？" "はい" = true)
    /\ (exists a,
          head (execs tr) = Some ("git branch --show-current", a)
          /\ forallb (fun c => negb (Js.startsWith c "git push")
                               || String.eqb c ("git push origin " +:+ pushed_branch a)
                               || String.eqb c ("git push -u origin " +:+ pushed_branch a))
                     (ran tr) = true)
    /\ exists first, digest tr = pushed first (returned r)).
Proof.
  unfold push, createGitHubRepository. walk.
  all: split; [discriminate|]; split; [reflexivity|].
  all: split; [|split; [|split; [|eexists; digested]]].
  all: try (intros Hran;
            first [ vm_compute in Hran; discriminate Hran
                  | answered; vm_compute; reflexivity
                  | eexists; eexists; split; [reflexivity|]; split; reflexivity ]).
  all: eexists; split; [reflexivity|]; unfold pushed_branch;
    cbn [forallb ran map fst execs flat_map exec_of app succeeded settled
         success stdout];
    rewrite ?String.eqb_refl, ?orb_true_r; reflexivity.
Qed.

Lemma openInBrowser_runs :
  every_run (openInBrowser workspaceRoot) (fun tr r =>
    r = Returns tt
    /\ (opened tr = []
        \/ succeeded_any tr "gh repo view --web" = false
           /\ exists a,
                answer_to "git remote get-url origin" (execs tr) = Some a
                /\ succeeded a = true
                /\ opened tr = [browserUrl (Js.trim (stdout (settled a)))])
    /\ digest tr = aside None true).
Proof.
  unfold openInBrowser. walk.
  all: split; [reflexivity|]; split; [|digested].
  all: first [ left; reflexivity
             | right; split; [reflexivity|]; eexists; repeat split; reflexivity ].
Qed.

End MethodFacts.
(** ** [execute] *)

Lemma analysis_shape fs platformInfo workspaceRoot a :
  analyzeCurrentDirectory fs platformInfo workspaceRoot = Returns a ->
  isGitRepo a = existsSync fs (gitPath workspaceRoot)
  /\ (isGitRepo a = true /\ warningMessage a = None
      \/ isGitRepo a = false
         /\ (warningMessage a = None
             \/ exists text, text ∈ warnings /\ warningMessage a = Some text)).
Proof.
  run_analysis (probes_return fs workspaceRoot).
  intros [= <-].
  destruct (existsSync fs (gitPath workspaceRoot)),
           (isSystemFolder platformInfo workspaceRoot), nested, empty, sources;
    (split; [reflexivity|]); cbn;
    first [ left; split; reflexivity
          | right; split; [reflexivity|]; left; reflexivity
          | right; split; [reflexivity|]; right; eexists;
            split; [|reflexivity]; unfold warnings; set_solver ].
Qed.

Lemma analyzeCurrentDirectory_returns fs platformInfo workspaceRoot :
  exists a, analyzeCurrentDirectory fs platformInfo workspaceRoot = Returns a.
Proof.
  run_analysis (probes_return fs workspaceRoot). eexists. reflexivity.
Qed.

Lemma only_one l text : only l text = true -> l = [text].
Proof.
  destruct l as [|t [|u rest]]; try discriminate. cbn [only].
  intros ->%String.eqb_eq. reflexivity.
Qed.

Lemma is_nil_true {A} (l : list A) : is_nil l = true -> l = [].
Proof. destruct l; [reflexivity|discriminate]. Qed.

(** What [sound] says, part by part. *)
Lemma sound_parts repo d :
  sound repo d = true ->
  (cancelled d = true -> commanded d = false /\ summarised d = [] /\ reported d = [])
  /\ (init_ran d = true -> repo = false /\ init_agreed d = true)
  /\ (add_ran d = true -> stage_agreed d = true)
  /\ (commit_ran d = true -> add_ok d = true)
  /\ (push_ran d = true -> push_agreed d || idle_push_agreed d = true)
  /\ (add_ran d = true -> add_ok d = false ->
      commit_ran d = false /\ push_ran d = false
      /\ reported d = ["Git Auto Push エラー: ステージングに失敗しました"])
  /\ (commit_ran d = true -> commit_ok d = false ->
      push_ran d = false /\ reported d = ["Git Auto Push エラー: コミットに失敗しました"])
  /\ (idle_push_agreed d = true -> push_ok d = true ->
      add_ran d = false /\ commit_ran d = false /\ summarised d <> []
      /\ Forall (fun s => staging s = true /\ commit_ s = true /\ push_ s = true)
                (summarised d))
  /\ length (summarised d) <= 1
  /\ length (reported d) <= length (summarised d)
  /\ Forall (fun s => flags_hold repo d s = true) (summarised d).
Proof.
  unfold sound. intros Hs.
  repeat (let H := fresh "Hpart" in apply andb_true_iff in Hs as [Hs H]).
  repeat split.
  - destruct (cancelled d); [|discriminate].
    apply andb_true_iff in Hs as [[Hc _]%andb_true_iff _].
    now apply negb_true_iff in Hc.
  - destruct (cancelled d); [|discriminate].
    apply andb_true_iff in Hs as [[_ Hn]%andb_true_iff _]. now apply is_nil_true.
  - destruct (cancelled d); [|discriminate].
    apply andb_true_iff in Hs as [_ Hn]. now apply is_nil_true.
  - destruct (init_ran d), repo; try discriminate; reflexivity.
  - destruct (init_ran d), repo, (init_agreed d); try discriminate; reflexivity.
  - destruct (add_ran d), (stage_agreed d); try discriminate; reflexivity.
  - destruct (commit_ran d), (add_ok d); try discriminate; reflexivity.
  - destruct (push_ran d); [intros _; exact Hpart5|discriminate].
  - destruct (add_ran d), (add_ok d), (commit_ran d); try discriminate; reflexivity.
  - destruct (add_ran d), (add_ok d), (commit_ran d), (push_ran d);
      try discriminate; reflexivity.
  - destruct (add_ran d), (add_ok d); try discriminate.
    apply andb_true_iff in Hpart4 as [_ Hone]. now apply only_one.
  - destruct (commit_ran d), (commit_ok d), (push_ran d); try discriminate; reflexivity.
  - destruct (commit_ran d), (commit_ok d); try discriminate.
    apply andb_true_iff in Hpart3 as [_ Hone]. now apply only_one.
  - destruct (idle_push_agreed d), (push_ok d), (add_ran d); try discriminate; reflexivity.
  - destruct (idle_push_agreed d), (push_ok d), (add_ran d), (commit_ran d);
      try discriminate; reflexivity.
  - destruct (idle_push_agreed d), (push_ok d); try discriminate.
    apply andb_true_iff in Hpart2 as [[_ Hn]%andb_true_iff _].
    intros E. rewrite E in Hn. discriminate Hn.
  - destruct (idle_push_agreed d), (push_ok d); try discriminate.
    apply andb_true_iff in Hpart2 as [_ Hall].
    apply Forall_forall. intros s Hin%list_elem_of_In.
    apply (proj1 (forallb_forall _ _) Hall) in Hin.
    apply andb_true_iff in Hin as [[? ?]%andb_true_iff ?]. auto.
  - apply Nat.leb_le. exact Hpart1.
  - apply Nat.leb_le. exact Hpart0.
  - apply Forall_forall. intros s Hin%list_elem_of_In.
    apply (proj1 (forallb_forall _ _) Hpart). exact Hin.
Qed.

(** The trace of a leaf, as the pieces it was put together from. *)
Ltac prefix_of t :=
  lazymatch t with
  | ?e :: ?r => let p := prefix_of r in constr:(e :: p)
  | _ => constr:(@nil uio)
  end.

Ltac rest_of t :=
  lazymatch t with
  | _ :: ?r => rest_of r
  | _ => t
  end.

Ltac pieces t :=
  lazymatch t with
  | @nil _ => constr:(@nil uio)
  | ?a ++ ?b => let b' := pieces b in constr:(a ++ b')
  | _ :: _ =>
    let p := prefix_of t in
    let r := rest_of t in
    let r' := pieces r in
    constr:(p ++ r')
  end.

Ltac walk_by step :=
  apply every_run_as_settle;
  match goal with
  | |- every_run _ ?P =>
    let Post := fresh "Post" in
    set (Post := P); repeat step; unfold_task;
    answered;
    match goal with
    | |- ?post ?tr ?r => let tr' := pieces tr in change (post tr' r)
    end;
    subst Post; cbv beta
  end.

Ltac in_pieces :=
  repeat match goal with
         | |- context [digest (?x ++ ?y)] => rewrite (digest_app x y)
         end;
  repeat match goal with
         | H : digest ?tr = _ |- context [digest ?tr] => rewrite H
         end.

(** A digest is computed; what is left open is an answer other than the
    one asked for. *)
Ltac weigh :=
  vm_compute;
  repeat match goal with
         | H : String.eqb _ _ = false |- _ => vm_compute in H; rewrite H; vm_compute
         end;
  reflexivity.

Ltac past lemma :=
  apply every_run_settle; (eapply every_run_weaken; [|apply lemma]); cbv beta.

Ltac past_core :=
  let tr := fresh "tr" in
  let b := fresh "b" in
  let Hd := fresh "Hdigest" in
  past checkBranchDivergence_runs; intros tr ? [[b ->] Hd].

Ltac past_handle :=
  let tr := fresh "tr" in
  let b := fresh "b" in
  let first := fresh "first" in
  let ran := fresh "ran" in
  let Hd := fresh "Hdigest" in
  past handleBranchDivergence_runs; intros tr ? [[b ->] (first & ran & Hd)].

Ltac past_commit :=
  let tr := fresh "tr" in
  let a := fresh "a" in
  let Hd := fresh "Hdigest" in
  past commit_runs; intros tr ? [a (_ & -> & Hd)]; destruct (succeeded a); cbv beta iota.

Ltac past_push :=
  let tr := fresh "tr" in
  let Hr := fresh "Hends" in
  let Hd := fresh "Hdigest" in
  let first := fresh "first" in
  past push_runs; intros tr [[]|?|] (Hr & _ & _ & _ & _ & [first Hd]);
  [| |contradiction Hr; reflexivity]; clear Hr.

Ltac past_open :=
  let tr := fresh "tr" in
  let Hd := fresh "Hdigest" in
  past openInBrowser_runs; intros tr ? (-> & _ & Hd).

Ltac execute_step :=
  unfold_task;
  first
    [ match goal with
      | |- every_run (settle (lift (checkBranchDivergence _)) _ _) _ => past_core
      | |- every_run (settle (lift (handleBranchDivergence _)) _ _) _ => past_handle
      | |- every_run (settle (commit _ _) _ _) _ => past_commit
      | |- every_run (settle (push _ _) _ _) _ => past_push
      | |- every_run (settle (openInBrowser _) _ _) _ => past_open
      end
    | walk_step ].

Ltac walk_execute :=
  walk_by execute_step; (split; [reflexivity|]); in_pieces; weigh.

Section ExecuteFacts.

Variable fs : FileSystem.
Variable platformInfo : PlatformInfo.
Variable workspaceRoot : path.

Lemma execute_runs a :
  analyzeCurrentDirectory fs platformInfo workspaceRoot = Returns a ->
  every_run (execute fs platformInfo workspaceRoot) (fun tr r =>
    r = Returns tt /\ sound (isGitRepo a) (digest tr) = true).
Proof.
  intros Ha. destruct (analysis_shape _ _ _ _ Ha) as [_ Hshape].
  unfold execute, syncThenPush, stageCommitPush, initGitRepository, hasChanges, addAll.
  rewrite Ha. clear Ha.
  destruct a as [repo empty sources system nested kind recommended warning advice].
  cbn [isGitRepo warningMessage] in Hshape |- *.
  destruct Hshape as [[-> ->]|[-> [->|(text & Hin & ->)]]].
  - walk_execute.
  - walk_execute.
  - unfold warnings in Hin.
    apply elem_of_cons in Hin as [->|Hin];
      [|apply list_elem_of_singleton in Hin as ->].
    + walk_execute.
    + walk_execute.
Qed.

Lemma execute_digest (H : Host) (h : hstate H) :
  let run := perform H (execute fs platformInfo workspaceRoot) h in
  result_of run = Returns tt
  /\ sound (existsSync fs (gitPath workspaceRoot)) (digest (events_of run)) = true.
Proof.
  destruct (analyzeCurrentDirectory_returns fs platformInfo workspaceRoot) as [a Ha].
  destruct (analysis_shape _ _ _ _ Ha) as [<- _].
  exact (every_run_sound _ _ (execute_runs a Ha) H h).
Qed.

End ExecuteFacts.

(** ** What the extension does, run by run *)

Lemma returned_unit (r : outcome unit) :
  r <> OutOfFuel -> (r = Returns tt <-> returned r = true).
Proof. destruct r as [[]|e|]; cbn; intuition congruence. Qed.

Section Runs.

Variable fs : FileSystem.
Variable platformInfo : PlatformInfo.
Variable workspaceRoot : path.
Variable H : Host.
Variable h : hstate H.

(** X9. [ensureGitIdentity] never throws, whatever the commands answer, and
    it sets the name (the address) exactly when the query for it failed or
    printed nothing but white space: an identity that is configured is
    never overwritten. *)
Theorem ensureGitIdentity_fills_only_missing :
  let run := perform H (ensureGitIdentity workspaceRoot) h in
  result_of run = Returns tt
  /\ (exists a, answer_to "git config user.name" (execs (events_of run)) = Some a
                /\ ran_any (events_of run) set_name_command = negb (printed a))
  /\ (exists a, answer_to "git config user.email" (execs (events_of run)) = Some a
                /\ ran_any (events_of run) set_email_command = negb (printed a)).
Proof.
  intros run.
  destruct (every_run_sound _ _ (ensureGitIdentity_runs workspaceRoot) H h)
    as (Hresult & Hname & Hemail & _).
  split; [exact Hresult|]. split; [exact Hname|exact Hemail].
Qed.

(** X10. [commit] always gets as far as [git commit], also when the
    identity could not be read or set; the message goes between double
    quotes as it is; and the call resolves when that command succeeds and
    throws the commit error when it does not. *)
Theorem commit_decided_by_git_commit text :
  let run := perform H (commit workspaceRoot text) h in
  exists a,
    last (execs (events_of run)) = Some ("git commit -m " +:+ DQ +:+ text +:+ DQ, a)
    /\ result_of run
       = if succeeded a then Returns tt else Throws (Error "コミットに失敗しました").
Proof.
  intros run.
  destruct (every_run_sound _ _ (commit_runs workspaceRoot text) H h)
    as (a & Hlast & Hresult & _).
  exists a. split; [exact Hlast|exact Hresult].
Qed.

(** X11. [createGitHubRepository] resolves exactly when [gh repo create]
    succeeded. That command is run only after [gh --version] and
    [gh auth status] succeeded and a visibility was picked; it is the last
    command, it names the repository after the workspace folder, and it is
    public only for the pick [public]. *)
Theorem createGitHubRepository_guards :
  let run := perform H (createGitHubRepository platformInfo workspaceRoot) h in
  let tr := events_of run in
  (result_of run = Returns tt <-> succeeded_any tr "gh repo create" = true)
  /\ (ran_any tr "gh repo create" = true ->
      succeeded_any tr "gh --version" = true
      /\ succeeded_any tr "gh auth status" = true
      /\ exists v,
           reply_to "リポジトリの可視性を選択してください" (dialogs tr) = Some (Some v)
           /\ v <> ""
           /\ last (ran tr)
              = Some ("gh repo create " +:+ repoName platformInfo workspaceRoot "new-repo"
                      +:+ " " +:+ (if String.eqb v "public" then "--public" else "--private")
                      +:+ " --source=. --remote=origin --push")).
Proof.
  intros run tr.
  destruct (every_run_sound _ _ (createGitHubRepository_runs platformInfo workspaceRoot) H h)
    as (Hdone & Hends & Hcreate).
  fold run in Hdone, Hends, Hcreate. fold tr in Hdone, Hcreate.
  split; [|exact Hcreate].
  rewrite Hdone. apply returned_unit. exact Hends.
Qed.

(** X12. [push] resolves exactly when one of its [git push] commands
    succeeded, and then that command is the last one it ran; otherwise it
    throws. *)
Theorem push_resolves_iff_pushed :
  let run := perform H (push platformInfo workspaceRoot) h in
  let tr := events_of run in
  (result_of run = Returns tt <-> succeeded_any tr "git push " = true)
  /\ result_of run <> OutOfFuel
  /\ (result_of run = Returns tt ->
      exists c a, last (execs tr) = Some (c, a)
                  /\ Js.startsWith c "git push " = true /\ succeeded a = true).
Proof.
  intros run tr.
  destruct (every_run_sound _ _ (push_runs platformInfo workspaceRoot) H h)
    as (Hends & Hdone & Hlast & _).
  fold run in Hends, Hdone, Hlast. fold tr in Hdone, Hlast.
  split; [|split; [exact Hends|]].
  - rewrite Hdone. apply returned_unit. exact Hends.
  - intros Hresult. apply Hlast. rewrite Hresult. reflexivity.
Qed.

(** X13. [push] turns to the GitHub CLI only when the operator answered
    [はい] to the offer to create a repository. *)
Theorem push_creates_repository_only_on_consent :
  let tr := events_of (perform H (push platformInfo workspaceRoot) h) in
  ran_any tr "gh " = true ->
  chose tr "プッシュに失敗しました。GitHubリポジトリを作成しますか？" "はい" = true.
Proof.
  intros tr.
  destruct (every_run_sound _ _ (push_runs platformInfo workspaceRoot) H h)
    as (_ & _ & _ & Hasked & _).
  exact Hasked.
Qed.

(** X14. [push] starts by asking for the current branch, and every
    [git push] it runs is [git push origin] or [git push -u origin] of the
    branch that query printed, or of [main] when the query failed. *)
Theorem push_targets_current_branch :
  let tr := events_of (perform H (push platformInfo workspaceRoot) h) in
  exists a,
    head (execs tr) = Some ("git branch --show-current", a)
    /\ Forall (fun c => Js.startsWith c "git push" = true ->
                        c = "git push origin " +:+ pushed_branch a
                        \/ c = "git push -u origin " +:+ pushed_branch a)
              (ran tr).
Proof.
  intros tr.
  destruct (every_run_sound _ _ (push_runs platformInfo workspaceRoot) H h)
    as (_ & _ & _ & _ & (a & Hfirst & Hall) & _).
  exists a. split; [exact Hfirst|].
  apply Forall_forall. intros c Hin%list_elem_of_In Hpush.
  apply (proj1 (forallb_forall _ _) Hall) in Hin.
  rewrite Hpush in Hin. cbn [negb orb] in Hin.
  apply orb_true_iff in Hin as [Hc|Hc]; apply String.eqb_eq in Hc; auto.
Qed.

(** X15. [openInBrowser] never throws, not even when the browser cannot be
    opened. It hands at most one URL to the browser, and only when
    [gh repo view --web] did not succeed and the remote URL could be read;
    the URL is the rewritten output of [git remote get-url origin]. *)
Theorem openInBrowser_never_throws :
  let run := perform H (openInBrowser workspaceRoot) h in
  let tr := events_of run in
  result_of run = Returns tt
  /\ (opened tr = []
      \/ succeeded_any tr "gh repo view --web" = false
         /\ exists a,
              answer_to "git remote get-url origin" (execs tr) = Some a
              /\ succeeded a = true
              /\ opened tr = [browserUrl (Js.trim (stdout (settled a)))]).
Proof.
  intros run tr.
  destruct (every_run_sound _ _ (openInBrowser_runs workspaceRoot) H h)
    as (Hresult & Hopened & _).
  split; [exact Hresult|exact Hopened].
Qed.

(** X16. [execute] never rejects: every error of a step is caught, and
    the promise resolves once each request is answered. It prints at most
    one summary and shows at most one error dialog, and an error dialog
    always comes with the summary. *)
Theorem execute_resolves_and_reports_once :
  let run := perform H (execute fs platformInfo workspaceRoot) h in
  result_of run = Returns tt
  /\ length (summaries (events_of run)) <= 1
  /\ length (errors (events_of run)) <= length (summaries (events_of run)).
Proof.
  intros run. destruct (execute_digest fs platformInfo workspaceRoot H h) as [Hresult Hs].
  apply sound_parts in Hs as (_ & _ & _ & _ & _ & _ & _ & _ & Hone & Herr & _).
  split; [exact Hresult|]. split; [exact Hone|exact Herr].
Qed.

(** X17. [execute] changes nothing unasked: [git init] runs only in a
    folder without [.git] and after [はい] to the offer to initialise;
    [git add] only after [はい] to the staging question; [git commit] only
    after a [git add] that succeeded; and a push of [push] only after [はい]
    to one of the two push questions. *)
Theorem execute_acts_on_consent :
  let tr := events_of (perform H (execute fs platformInfo workspaceRoot) h) in
  (ran_any tr "git init" = true ->
   existsSync fs (gitPath workspaceRoot) = false
   /\ chose tr "Gitリポジトリではありません。初期化しますか？" "はい" = true)
  /\ (ran_any tr "git add" = true -> chose tr "変更をステージングしますか？" "はい" = true)
  /\ (ran_any tr "git commit" = true -> succeeded_any tr "git add" = true)
  /\ (ran_any tr "git push origin" || ran_any tr "git push -u" = true ->
      chose tr "プッシュしますか？" "はい"
      || chose tr "変更がありませんが、プッシュしますか？" "はい" = true).
Proof.
  intros tr. destruct (execute_digest fs platformInfo workspaceRoot H h) as [_ Hs].
  apply sound_parts in Hs as (_ & Hinit & Hadd & Hcommit & Hpush & _).
  split; [exact Hinit|]. split; [exact Hadd|]. split; [exact Hcommit|exact Hpush].
Qed.

(** X18. When the operator does not answer [はい] to the first question,
    [execute] runs no command, prints no summary and shows no error. *)
Theorem execute_cancelled_runs_nothing :
  let tr := events_of (perform H (execute fs platformInfo workspaceRoot) h) in
  first_answer tr = Some false ->
  ran tr = [] /\ summaries tr = [] /\ errors tr = [].
Proof.
  intros tr Hfirst. destruct (execute_digest fs platformInfo workspaceRoot H h) as [_ Hs].
  apply sound_parts in Hs as (Hcancel & _).
  destruct Hcancel as (Hran & Hsum & Herr).
  { unfold cancelled. cbn [digest confirmed]. fold tr. rewrite Hfirst. reflexivity. }
  split; [|split; [exact Hsum|exact Herr]].
  cbn [digest commanded] in Hran. fold tr in Hran. unfold ran_any in Hran.
  destruct (ran tr) as [|c rest]; [reflexivity|].
  destruct c; cbn [existsb Js.startsWith orb] in Hran; discriminate Hran.
Qed.

(** X19. What a summary says is backed by the run, with one exception.
    [gitInit] is reported only after a [git init] that succeeded; a run
    whose branch sync is reported as not done has staged, committed and
    pushed nothing; [push] is reported only after a push that succeeded;
    [browserOpen] only together with [push], [commit] and [staging], and
    whether or not anything was opened. The exception: [staging] and
    [commit] are reported either after the command succeeded, or in a run
    that never ran the command and reports the push. *)
Theorem summary_flags_backed_by_run :
  let tr := events_of (perform H (execute fs platformInfo workspaceRoot) h) in
  Forall (fun s =>
    (gitInit s = true -> succeeded_any tr "git init" = true)
    /\ (branchSync s = false ->
        ran_any tr "git add" = false /\ ran_any tr "git commit" = false
        /\ ran_any tr "git push origin" || ran_any tr "git push -u" = false)
    /\ (staging s = true ->
        succeeded_any tr "git add" = true
        \/ ran_any tr "git add" = false /\ commit_ s = true /\ push_ s = true)
    /\ (commit_ s = true ->
        succeeded_any tr "git commit" = true
        \/ ran_any tr "git commit" = false /\ staging s = true /\ push_ s = true)
    /\ (push_ s = true ->
        succeeded_any tr "git push origin" || succeeded_any tr "git push -u" = true)
    /\ (browserOpen s = true ->
        push_ s = true /\ commit_ s = true /\ staging s = true))
    (summaries tr).
Proof.
  intros tr. destruct (execute_digest fs platformInfo workspaceRoot H h) as [_ Hs].
  apply sound_parts in Hs as (_ & _ & _ & _ & _ & _ & _ & _ & _ & _ & Hflags).
  cbn [digest summarised] in Hflags. fold tr in Hflags.
  eapply Forall_impl; [exact Hflags|]. intros s Hs. cbv beta in Hs.
  unfold flags_hold in Hs.
  cbn [digest init_ok add_ran commit_ran push_ran add_ok commit_ok push_ok] in Hs.
  fold tr in Hs.
  repeat (let Hp := fresh "Hpart" in apply andb_true_iff in Hs as [Hs Hp]).
  destruct s as [g b st c p o]. cbn [gitInit branchSync staging commit_ push_ browserOpen] in *.
  split; [|split; [|split; [|split; [|split]]]].
  - intros ->. cbn [implb] in Hs. now apply andb_true_iff in Hs as [? _].
  - intros ->. cbn [implb negb] in Hpart3.
    destruct (ran_any tr "git add"), (ran_any tr "git commit"),
      (ran_any tr "git push origin" || ran_any tr "git push -u");
      try discriminate; auto.
  - intros ->. cbn [implb] in Hpart2.
    destruct (succeeded_any tr "git add"); [left; reflexivity|right].
    destruct (ran_any tr "git add"), c, p; try discriminate; auto.
  - intros ->. cbn [implb] in Hpart1.
    destruct (succeeded_any tr "git commit"); [left; reflexivity|right].
    destruct (ran_any tr "git commit"), st, p; try discriminate; auto.
  - intros ->. exact Hpart0.
  - intros ->. cbn [implb] in Hpart. destruct p, c, st; try discriminate; auto.
Qed.

(** X20. The exception at work: when nothing had changed, the operator
    agreed to push and the push succeeded, the run has staged and committed
    nothing, and its summary reports staging, commit and push as done. *)
Theorem idle_push_reports_staging_and_commit :
  let tr := events_of (perform H (execute fs platformInfo workspaceRoot) h) in
  chose tr "変更がありませんが、プッシュしますか？" "はい" = true ->
  succeeded_any tr "git push origin" || succeeded_any tr "git push -u" = true ->
  ran_any tr "git add" = false /\ ran_any tr "git commit" = false
  /\ exists s, summaries tr = [s]
               /\ staging s = true /\ commit_ s = true /\ push_ s = true.
Proof.
  intros tr Hagreed Hpushed.
  destruct (execute_digest fs platformInfo workspaceRoot H h) as [_ Hs].
  apply sound_parts in Hs as (_ & _ & _ & _ & _ & _ & _ & Hidle & Hone & _).
  destruct (Hidle Hagreed Hpushed) as (Hadd & Hcommit & Hsome & Hall).
  split; [exact Hadd|]. split; [exact Hcommit|].
  cbn [digest summarised] in Hone, Hsome, Hall. fold tr in Hone, Hsome, Hall.
  destruct (summaries tr) as [|s [|s' rest]]; [contradiction|..|cbn in Hone; lia].
  exists s. split; [reflexivity|]. exact (Forall_inv Hall).
Qed.

(** X21. In a folder that has a [.git], [execute] never runs [git init],
    every summary reports [gitInit] as not done, and so no summary counts
    all six operations as successful: the line that says they all
    completed is out of reach. *)
Theorem existing_repository_never_all_succeeded :
  let tr := events_of (perform H (execute fs platformInfo workspaceRoot) h) in
  existsSync fs (gitPath workspaceRoot) = true ->
  ran_any tr "git init" = false
  /\ Forall (fun s => gitInit s = false /\ successCount s < totalCount s) (summaries tr).
Proof.
  intros tr Hrepo.
  destruct (execute_digest fs platformInfo workspaceRoot H h) as [_ Hs].
  rewrite Hrepo in Hs.
  apply sound_parts in Hs as (_ & Hinit & _ & _ & _ & _ & _ & _ & _ & _ & Hflags).
  split.
  - cbn [digest init_ran] in Hinit. fold tr in Hinit.
    destruct (ran_any tr "git init"); [|reflexivity].
    destruct (Hinit eq_refl) as [Hno _]. discriminate Hno.
  - cbn [digest summarised] in Hflags. fold tr in Hflags.
    eapply Forall_impl; [exact Hflags|]. intros s Hs. cbv beta in Hs.
    unfold flags_hold in Hs.
    repeat (let Hp := fresh "Hpart" in apply andb_true_iff in Hs as [Hs Hp]).
    destruct s as [g b st c p o]. cbn [gitInit] in *.
    destruct g; [rewrite andb_false_r in Hs; discriminate Hs|].
    split; [reflexivity|].
    destruct b, st, c, p, o; vm_compute; lia.
Qed.

(** X22. A [git add] that fails ends the run: the staging error is the one
    error shown, and nothing is committed or pushed. *)
Theorem failed_staging_stops_the_run :
  let tr := events_of (perform H (execute fs platformInfo workspaceRoot) h) in
  ran_any tr "git add" = true ->
  succeeded_any tr "git add" = false ->
  ran_any tr "git commit" = false
  /\ ran_any tr "git push origin" || ran_any tr "git push -u" = false
  /\ errors tr = ["Git Auto Push エラー: ステージングに失敗しました"].
Proof.
  intros tr Hran Hfailed.
  destruct (execute_digest fs platformInfo workspaceRoot H h) as [_ Hs].
  apply sound_parts in Hs as (_ & _ & _ & _ & _ & Hstop & _).
  exact (Hstop Hran Hfailed).
Qed.

(** X23. A [git commit] that fails ends the run: the commit error is the
    one error shown, and nothing is pushed. *)
Theorem failed_commit_stops_the_run :
  let tr := events_of (perform H (execute fs platformInfo workspaceRoot) h) in
  ran_any tr "git commit" = true ->
  succeeded_any tr "git commit" = false ->
  ran_any tr "git push origin" || ran_any tr "git push -u" = false
  /\ errors tr = ["Git Auto Push エラー: コミットに失敗しました"].
Proof.
  intros tr Hran Hfailed.
  destruct (execute_digest fs platformInfo workspaceRoot H h) as [_ Hs].
  apply sound_parts in Hs as (_ & _ & _ & _ & _ & _ & Hstop & _).
  exact (Hstop Hran Hfailed).
Qed.

End Runs.

Lemma push_creates_repository_only_on_consent_witness :
  let tr := events_of (perform (operator (Some "git push") "")
                          (push linuxHost (posix ["repo"])) tt) in
  ran_any tr "gh " = true
  /\ chose tr "プッシュに失敗しました。GitHubリポジトリを作成しますか？" "はい" = true.
Proof.
  split; [vm_compute; reflexivity|].
  apply (push_creates_repository_only_on_consent linuxHost (posix ["repo"])
           (operator (Some "git push") "") tt).
  vm_compute; reflexivity.
Defined.

Lemma execute_cancelled_runs_nothing_witness :
  let tr := events_of (perform bystander
                          (execute sample_disk linuxHost (posix ["repo"])) tt) in
  ran tr = [] /\ summaries tr = [] /\ errors tr = [].
Proof.
  apply (execute_cancelled_runs_nothing sample_disk linuxHost (posix ["repo"])
           bystander tt).
  vm_compute; reflexivity.
Defined.

Lemma idle_push_reports_staging_and_commit_witness :
  let tr := events_of (perform (operator None "")
                          (execute sample_disk linuxHost (posix ["repo"])) tt) in
  ran_any tr "git add" = false /\ ran_any tr "git commit" = false
  /\ exists s, summaries tr = [s]
               /\ staging s = true /\ commit_ s = true /\ push_ s = true.
Proof.
  apply (idle_push_reports_staging_and_commit sample_disk linuxHost (posix ["repo"])
           (operator None "") tt); vm_compute; reflexivity.
Defined.

Lemma existing_repository_never_all_succeeded_witness :
  let tr := events_of (perform (operator None " M notes.txt")
                          (execute sample_disk linuxHost (posix ["repo"])) tt) in
  ran_any tr "git init" = false
  /\ Forall (fun s => gitInit s = false /\ successCount s < totalCount s) (summaries tr).
Proof.
  apply (existing_repository_never_all_succeeded sample_disk linuxHost (posix ["repo"])
           (operator None " M notes.txt") tt).
  vm_compute; reflexivity.
Defined.

Lemma failed_staging_stops_the_run_witness :
  let tr := events_of (perform (operator (Some "git add") " M notes.txt")
                          (execute sample_disk linuxHost (posix ["repo"])) tt) in
  ran_any tr "git commit" = false
  /\ ran_any tr "git push origin" || ran_any tr "git push -u" = false
  /\ errors tr = ["Git Auto Push エラー: ステージングに失敗しました"].
Proof.
  apply (failed_staging_stops_the_run sample_disk linuxHost (posix ["repo"])
           (operator (Some "git add") " M notes.txt") tt); vm_compute; reflexivity.
Defined.

Lemma failed_commit_stops_the_run_witness :
  let tr := events_of (perform (operator (Some "git commit") " M notes.txt")
                          (execute sample_disk linuxHost (posix ["repo"])) tt) in
  ran_any tr "git push origin" || ran_any tr "git push -u" = false
  /\ errors tr = ["Git Auto Push エラー: コミットに失敗しました"].
Proof.
  apply (failed_commit_stops_the_run sample_disk linuxHost (posix ["repo"])
           (operator (Some "git commit") " M notes.txt") tt); vm_compute; reflexivity.
Defined.

(** ** The name of the repository and the URL for the browser *)

Lemma startsWith_nil s : Js.startsWith s "" = true.
Proof. destruct s; reflexivity. Qed.

Lemma split_on_cons c x s :
  JsText.split_on c (String x s)
  = if Ascii.eqb x c then "" :: JsText.split_on c s
    else match JsText.split_on c s with
         | h :: t => String x h :: t
         | [] => [String x ""]
         end.
Proof. reflexivity. Qed.

Lemma includes_char_cons x s c :
  Js.includes (String x s) (String c "") = Ascii.eqb c x || Js.includes s (String c "").
Proof.
  rewrite includes_unfold. cbn [Js.startsWith].
  destruct (Ascii.eqb c x); [rewrite startsWith_nil|]; reflexivity.
Qed.

Lemma split_on_whole c s :
  Js.includes s (String c "") = false -> JsText.split_on c s = [s].
Proof.
  induction s as [|x s IH]; [reflexivity|].
  rewrite includes_char_cons, split_on_cons. intros [Hx Hs]%orb_false_iff.
  rewrite Ascii.eqb_sym, Hx, (IH Hs). reflexivity.
Qed.

Lemma split_on_two c a b :
  exists h h' t, JsText.split_on c (a +:+ String c b) = h :: h' :: t.
Proof.
  induction a as [|x a (h & h' & t & IH)].
  - rewrite append_nil, split_on_cons, Ascii.eqb_refl.
    destruct b as [|y b]; [exists "", "", []; reflexivity|].
    rewrite split_on_cons.
    destruct (Ascii.eqb y c); [eauto|].
    destruct (JsText.split_on c b); eauto.
  - rewrite append_cons, split_on_cons, IH.
    destruct (Ascii.eqb x c); eauto.
Qed.

Lemma split_on_last c a seg :
  Js.includes seg (String c "") = false ->
  last (JsText.split_on c (a +:+ String c seg)) = Some seg.
Proof.
  intros Hseg. induction a as [|x a IH].
  - rewrite append_nil, split_on_cons, Ascii.eqb_refl, (split_on_whole _ _ Hseg).
    reflexivity.
  - rewrite append_cons, split_on_cons.
    destruct (split_on_two c a seg) as (h & h' & t & E). rewrite E in IH |- *.
    destruct (Ascii.eqb x c); exact IH.
Qed.

Lemma concat_with_last sep0 (l : list string) name :
  Path.concat_with sep0 (l ++ [name])
  = match l with
    | [] => name
    | _ => Path.concat_with sep0 l +:+ sep0 +:+ name
    end.
Proof.
  induction l as [|x l IH]; [reflexivity|].
  destruct l as [|y l]; [reflexivity|].
  change (x +:+ sep0 +:+ Path.concat_with sep0 ((y :: l) ++ [name])
          = (x +:+ sep0 +:+ Path.concat_with sep0 (y :: l)) +:+ sep0 +:+ name).
  rewrite IH, !append_assoc. reflexivity.
Qed.

(** X24. On a POSIX host the name shown for the repository, and given to
    [gh repo create], is the last segment of the workspace path; for the
    root of the file system it is the fallback. *)
Theorem repoName_posix platformInfo fallback :
  isWindows platformInfo = false ->
  repoName platformInfo (posix []) fallback = fallback
  /\ forall before seg,
       seg <> "" -> Js.includes seg "/" = false ->
       repoName platformInfo (posix (before ++ [seg])) fallback = seg.
Proof.
  intros Hposix. unfold repoName, workspaceRootString, Path.to_string, sep, posix.
  rewrite Hposix. cbn [proot psegs]. split; [reflexivity|].
  intros before seg Hseg Hplain.
  rewrite concat_with_last.
  assert (exists a, "/" +:+ match before with
                            | [] => seg
                            | _ => Path.concat_with "/" before +:+ "/" +:+ seg
                            end = a +:+ String "/" seg) as [a ->].
  { destruct before as [|x before].
    - exists "". reflexivity.
    - exists ("/" +:+ Path.concat_with "/" (x :: before)).
      rewrite append_assoc. reflexivity. }
  unfold JsText.pop. rewrite (split_on_last _ _ _ Hplain).
  destruct seg; [contradiction|reflexivity].
Qed.

Lemma repoName_posix_witness :
  repoName linuxHost (posix []) "new-repo" = "new-repo"
  /\ repoName linuxHost (posix (["home"; "me"] ++ ["autopush"])) "new-repo" = "autopush".
Proof.
  destruct (repoName_posix linuxHost "new-repo") as [Hroot Hlast]; [reflexivity|].
  split; [exact Hroot|].
  apply Hlast; [discriminate|vm_compute; reflexivity].
Defined.

Lemma includes_char_app a b c :
  Js.includes (a +:+ b) (String c "")
  = Js.includes a (String c "") || Js.includes b (String c "").
Proof.
  induction a as [|x a IH].
  - rewrite append_nil. destruct b; reflexivity.
  - rewrite append_cons, !includes_char_cons, IH, orb_assoc. reflexivity.
Qed.

Lemma concat_with_plain sep0 (l : list string) c :
  Js.includes sep0 (String c "") = false ->
  Forall (fun seg => Js.includes seg (String c "") = false) l ->
  Js.includes (Path.concat_with sep0 l) (String c "") = false.
Proof.
  intros Hsep Hall. induction Hall as [|seg l Hseg Hall IH]; [reflexivity|].
  destruct l as [|y l]; [exact Hseg|].
  change (Js.includes (seg +:+ sep0 +:+ Path.concat_with sep0 (y :: l)) (String c "")
          = false).
  rewrite !includes_char_app, Hseg, Hsep, IH. reflexivity.
Qed.

(** X25. On Windows the path is written with backslashes, so splitting it
    at [/] leaves it whole: the name of the repository is the whole
    path. *)
Theorem repoName_windows platformInfo workspaceRoot fallback :
  isWindows platformInfo = true ->
  Js.includes (proot workspaceRoot) "/" = false ->
  Forall (fun seg => Js.includes seg "/" = false) (psegs workspaceRoot) ->
  workspaceRootString platformInfo workspaceRoot <> "" ->
  repoName platformInfo workspaceRoot fallback
  = workspaceRootString platformInfo workspaceRoot.
Proof.
  intros Hwindows Hroot Hsegs Hsome.
  assert (Js.includes (workspaceRootString platformInfo workspaceRoot) "/" = false)
    as Hplain.
  { unfold workspaceRootString, Path.to_string, sep. rewrite Hwindows.
    rewrite includes_char_app, Hroot.
    apply concat_with_plain; [reflexivity|exact Hsegs]. }
  unfold repoName, JsText.pop.
  rewrite (split_on_whole _ _ Hplain). cbn [last JsText.or_else].
  destruct (workspaceRootString platformInfo workspaceRoot); [contradiction|reflexivity].
Qed.

Lemma repoName_windows_witness :
  repoName windowsHost {| proot := "c:\"; psegs := ["Users"; "me"; "autopush"] |} "new-repo"
  = "c:\Users\me\autopush".
Proof.
  apply (repoName_windows windowsHost
           {| proot := "c:\"; psegs := ["Users"; "me"; "autopush"] |} "new-repo");
    [reflexivity|reflexivity| |discriminate].
  repeat constructor.
Defined.

Lemma append_nil_r (s : string) : s +:+ "" = s.
Proof. induction s as [|c s IH]; [reflexivity|]. rewrite append_cons, IH. reflexivity. Qed.

Lemma includes_skip c s d p :
  Ascii.eqb d c = false -> Js.includes (String c s) (String d p) = Js.includes s (String d p).
Proof. intros Hc. rewrite includes_unfold. cbn [Js.startsWith]. rewrite Hc. reflexivity. Qed.

Lemma replace_unfold s pat rep :
  JsText.replace s pat rep
  = if Js.startsWith s pat then rep +:+ Path.drop (String.length pat) s
    else match s with
         | EmptyString => EmptyString
         | String c s' => String c (JsText.replace s' pat rep)
         end.
Proof. destruct s; reflexivity. Qed.

Lemma replace_colon a b :
  Js.includes a ":" = false ->
  JsText.replace (a +:+ ":" +:+ b) ":" "/" = a +:+ "/" +:+ b.
Proof.
  induction a as [|x a IH]; intros Hplain.
  - rewrite replace_unfold.
    change (Js.startsWith ("" +:+ ":" +:+ b) ":") with (Js.startsWith b "").
    rewrite startsWith_nil. reflexivity.
  - rewrite includes_char_cons in Hplain. apply orb_false_iff in Hplain as [Hx Ha].
    change (String x a +:+ ":" +:+ b) with (String x (a +:+ ":" +:+ b)).
    rewrite replace_unfold. cbn [Js.startsWith]. rewrite Hx, (IH Ha).
    reflexivity.
Qed.

(** A match of [.git] at the head of a string reads four bytes. *)
Lemma dot_git_window x a b :
  Js.startsWith (String x a +:+ ".git" +:+ b) ".git"
  = Js.startsWith (String x a +:+ ".gi") ".git".
Proof.
  destruct a as [|y [|z [|w a]]]; rewrite ?append_cons, ?append_nil;
    cbn [Js.startsWith];
    repeat match goal with
           | |- context [Ascii.eqb ?p ?q] => destruct (Ascii.eqb p q) eqn:?
           end; rewrite ?startsWith_nil; try reflexivity; discriminate.
Qed.

Lemma replace_dot_git a b :
  Js.includes (a +:+ ".gi") ".git" = false ->
  JsText.replace (a +:+ ".git" +:+ b) ".git" "" = a +:+ b.
Proof.
  induction a as [|x a IH]; intros Hfirst.
  - rewrite replace_unfold.
    change (Js.startsWith ("" +:+ ".git" +:+ b) ".git") with (Js.startsWith b "").
    rewrite startsWith_nil. reflexivity.
  - rewrite includes_unfold in Hfirst. apply orb_false_iff in Hfirst as [Hx Ha].
    rewrite replace_unfold, dot_git_window, Hx.
    change (String x a +:+ ".git" +:+ b) with (String x (a +:+ ".git" +:+ b)).
    cbv iota. rewrite (IH Ha). reflexivity.
Qed.

(** X26. An SSH remote [git@host:path.git] is opened as
    [https://host/path], provided the host has no colon and [.git] does not
    occur before the end. *)
Theorem browserUrl_of_ssh_remote host path :
  Js.includes host ":" = false ->
  Js.includes (host +:+ "/" +:+ path +:+ ".gi") ".git" = false ->
  browserUrl ("git@" +:+ host +:+ ":" +:+ path +:+ ".git")
  = "https://" +:+ host +:+ "/" +:+ path.
Proof.
  intros Hhost Hfirst. unfold browserUrl.
  rewrite (startsWith_app "git@" _ "git@" eq_refl).
  replace ("git@" +:+ host +:+ ":" +:+ path +:+ ".git")
    with (("git@" +:+ host) +:+ ":" +:+ (path +:+ ".git"))
    by (rewrite !append_assoc; reflexivity).
  rewrite replace_colon.
  2:{ rewrite !append_cons, append_nil, !includes_char_cons. exact Hhost. }
  rewrite append_assoc.
  rewrite (replace_unfold ("git@" +:+ host +:+ "/" +:+ path +:+ ".git")).
  rewrite (startsWith_app "git@" _ "git@" eq_refl).
  change (Path.drop (String.length "git@") ("git@" +:+ host +:+ "/" +:+ path +:+ ".git"))
    with (host +:+ "/" +:+ path +:+ ".git").
  replace ("https://" +:+ host +:+ "/" +:+ path +:+ ".git")
    with (("https://" +:+ host +:+ "/" +:+ path) +:+ ".git" +:+ "")
    by (rewrite !append_assoc; reflexivity).
  rewrite replace_dot_git.
  - apply append_nil_r.
  - rewrite !append_assoc.
    set (rest := host +:+ "/" +:+ path +:+ ".gi") in *.
    repeat (rewrite append_cons, includes_skip by reflexivity).
    rewrite append_nil. exact Hfirst.
Qed.

Lemma browserUrl_of_ssh_remote_witness :
  browserUrl ("git@" +:+ "github.com" +:+ ":" +:+ "bonsai/autopush" +:+ ".git")
  = "https://" +:+ "github.com" +:+ "/" +:+ "bonsai/autopush".
Proof.
  apply (browserUrl_of_ssh_remote "github.com" "bonsai/autopush"); vm_compute; reflexivity.
Defined.

(** X27. For any other remote that ends in [.git], the first [.git] is
    taken out of the URL, wherever it stands: the one at the end only when
    there is none before it. *)
Theorem browserUrl_drops_first_dot_git a b :
  Js.startsWith (a +:+ ".git" +:+ b) "git@" = false ->
  JsText.endsWith (a +:+ ".git" +:+ b) ".git" = true ->
  Js.includes (a +:+ ".gi") ".git" = false ->
  browserUrl (a +:+ ".git" +:+ b) = a +:+ b.
Proof.
  intros Hssh Hends Hfirst. unfold browserUrl. rewrite Hssh, Hends.
  apply replace_dot_git, Hfirst.
Qed.

Lemma browserUrl_drops_first_dot_git_witness :
  browserUrl ("https://pages" +:+ ".git" +:+ "hub.example/bonsai/autopush.git")
  = "https://pages" +:+ "hub.example/bonsai/autopush.git".
Proof.
  apply (browserUrl_drops_first_dot_git
           "https://pages" "hub.example/bonsai/autopush.git"); vm_compute; reflexivity.
Defined.

(** ** The standalone scripts *)

Lemma every_play_sound (s : Script) (P : Z -> list asked -> Prop) :
  every_play s P ->
  forall (M : Machine) (m : mstate M), P (play M s m).1 (play M s m).2.
Proof.
  revert P. induction s as [code|X ev k IH]; intros P Hall M m; [exact Hall|].
  cbn [play]. destruct (reply M X ev m) as [x m1].
  specialize (IH x _ (Hall x) M m1).
  destruct (play M (k x) m1) as [code tr]. exact IH.
Qed.

Ltac play_step :=
  cbn [every_play or_exit fst snd negb];
  match goal with
  | |- forall x : Z * string, _ => intros [? ?]
  | |- forall x : bool, _ => intros [|]
  | |- forall x : Z, _ => intros ?
  | |- forall x : string, _ => intros ?
  | |- every_play (if ?b then _ else _) _ => destruct b eqn:?
  | |- every_play (match ?x with _ => _ end) _ => destruct x eqn:?
  end.

Ltac play_all := repeat play_step; cbn [every_play].

Ltac settled_status :=
  repeat match goal with
         | H : (?z =? 0)%Z = true |- _ => apply Z.eqb_eq in H; subst z
         | H : (_ =? 0)%Z = false |- _ => apply Z.eqb_neq in H
         | H : String.eqb _ _ = true |- _ => apply String.eqb_eq in H
         | H : String.eqb _ _ = false |- _ => apply String.eqb_neq in H
         end.

(** One of the commands of a trace, taken apart. *)
Ltac which_command Hin :=
  cbn [commands_run flat_map command_run app fst snd] in Hin;
  repeat (destruct Hin as [Hin|Hin]; [injection Hin as <- <-|]);
  [..|destruct Hin].

Lemma Sh_main_plays args :
  every_play (Sh_main args) (fun code tr =>
    (ran_command ["git"; "add"; "."] tr = true ->
     In (Asked (IsDirectory ".git") true) tr
     /\ exists out, output_of ["git"; "status"; "--porcelain"] tr = Some out
                    /\ captured out <> "")
    /\ (forall out, output_of ["git"; "status"; "--porcelain"] tr = Some out ->
        captured out = "" ->
        code = 0%Z
        /\ argvs tr = [["git"; "branch"; "--show-current"];
                       ["git"; "status"; "--porcelain"]])
    /\ (forall argv status,
          In (argv, status) (commands_run tr) -> status <> 0%Z ->
          argv <> ["git"; "branch"; "--show-current"] ->
          argv <> ["git"; "status"; "--porcelain"] ->
          code = status /\ last (commands_run tr) = Some (argv, status))).
Proof.
  unfold Sh_main. play_all.
  all: settled_status.
  all: split; [|split].
  all: try (intros Hran; vm_compute in Hran; discriminate Hran).
  all: try (intros out [= <-] Hnone; first [contradiction | split; reflexivity]).
  all: try (intros out Hout; discriminate Hout).
  all: try (intros _; split; [cbn; auto|]; eexists; split; [reflexivity|assumption]).
  all: intros argv status Hin Hfailed Hbranch Hstatus; which_command Hin;
    try contradiction; split; reflexivity.
Qed.

Lemma Bat_start_plays vars :
  every_play (Bat_start vars) (fun code tr =>
    (forall errorlevel,
       errorlevel_of "git status --porcelain" tr = Some errorlevel ->
       if Z.eqb errorlevel 0 then ran_command ["git add ."] tr = true
       else code = 0%Z /\ argvs tr = [["git status --porcelain"]])
    /\ (code = 0%Z \/ code = 1%Z)
    /\ (forall line errorlevel,
          In ([line], errorlevel) (commands_run tr) -> errorlevel <> 0%Z ->
          line <> "git status --porcelain" ->
          code = 1%Z /\ last (commands_run tr) = Some ([line], errorlevel))).
Proof.
  unfold Bat_start. play_all.
  all: repeat match goal with
              | H : negb _ = true |- _ => apply negb_true_iff in H
              | H : negb _ = false |- _ => apply negb_false_iff in H
              end.
  all: split; [|split; [auto|]].
  all: first
         [ intros ? ? Hin Hfailed Hstatus; which_command Hin; settled_status;
           try contradiction; split; reflexivity
         | intros ? Hlevel; vm_compute in Hlevel;
           first [ discriminate Hlevel
                 | injection Hlevel as <-;
                   match goal with
                   | H : (_ =? 0)%Z = _ |- _ => rewrite H
                   end; first [split; reflexivity | vm_compute; reflexivity] ] ].
Qed.

Section Scripts.

Variable M : Machine.
Variable m : mstate M.

(** X28. git-auto-push.sh stages only where [.git] is a directory and after
    [git status --porcelain] printed something. When that command prints
    nothing, or only newlines, the script exits with status 0 and runs
    nothing after it: also when [git status] itself failed. *)
Theorem Sh_main_stages_only_changes args :
  let run := play M (Sh_main args) m in
  (ran_command ["git"; "add"; "."] run.2 = true ->
   In (Asked (IsDirectory ".git") true) run.2
   /\ exists out, output_of ["git"; "status"; "--porcelain"] run.2 = Some out
                  /\ captured out <> "")
  /\ (forall out, output_of ["git"; "status"; "--porcelain"] run.2 = Some out ->
      captured out = "" ->
      run.1 = 0%Z
      /\ argvs run.2 = [["git"; "branch"; "--show-current"];
                        ["git"; "status"; "--porcelain"]]).
Proof.
  intros run.
  destruct (every_play_sound _ _ (Sh_main_plays args) M m) as (Hstaged & Hclean & _).
  split; [exact Hstaged|exact Hclean].
Qed.

(** X29. Under [set -e], the first of [git add], [date], [git commit] and
    [git push] that fails is the last command of git-auto-push.sh, and its
    status is the exit status of the script: nothing is committed after a
    failed staging and nothing is pushed after a failed commit. *)
Theorem Sh_main_stops_at_first_failure args argv status :
  let run := play M (Sh_main args) m in
  In (argv, status) (commands_run run.2) ->
  status <> 0%Z ->
  argv <> ["git"; "branch"; "--show-current"] ->
  argv <> ["git"; "status"; "--porcelain"] ->
  run.1 = status /\ last (commands_run run.2) = Some (argv, status).
Proof.
  intros run.
  destruct (every_play_sound _ _ (Sh_main_plays args) M m) as (_ & _ & Hfirst).
  apply Hfirst.
Qed.

(** X30. git-auto-push.bat reads the exit status of [git status], not what
    it prints: when the command succeeds the script goes on to
    [git add .], whatever the state of the work tree, and when it fails
    the script reports that nothing changed and exits with 0. The script
    exits with 0 or 1, and with 1 right after the first of its other
    commands that fails. *)
Theorem Bat_main_takes_failure_for_no_changes args :
  let run := play M (Bat_main args) m in
  (forall errorlevel,
     errorlevel_of "git status --porcelain" run.2 = Some errorlevel ->
     if Z.eqb errorlevel 0 then ran_command ["git add ."] run.2 = true
     else run.1 = 0%Z /\ argvs run.2 = [["git status --porcelain"]])
  /\ (run.1 = 0%Z \/ run.1 = 1%Z)
  /\ (forall line errorlevel,
        In ([line], errorlevel) (commands_run run.2) -> errorlevel <> 0%Z ->
        line <> "git status --porcelain" ->
        run.1 = 1%Z /\ last (commands_run run.2) = Some ([line], errorlevel)).
Proof.
  intros run. unfold run, Bat_main.
  exact (every_play_sound _ _ (Bat_start_plays (Bat.parse_args args unset_vars)) M m).
Qed.

End Scripts.

Lemma Sh_main_stops_at_first_failure_witness :
  let run := play (faulty ["git"; "commit"] 3 " M notes.txt") (Sh_main ["-m"; "notes"]) tt in
  run.1 = 3%Z
  /\ last (commands_run run.2) = Some (["git"; "commit"; "-m"; "notes"], 3%Z).
Proof.
  apply (Sh_main_stops_at_first_failure (faulty ["git"; "commit"] 3 " M notes.txt") tt
           ["-m"; "notes"] ["git"; "commit"; "-m"; "notes"] 3%Z).
  - vm_compute. auto.
  - lia.
  - discriminate.
  - discriminate.
Defined.
